(** * Smart attendance: sessions, attendance ledger, descriptor store, matcher

    A shallow embedding of the service layer ([firebaseService.ts]) and of
    the face matcher ([faceRecognition.ts]).

    - A Firestore collection is a finite map from document ids to
      documents ([gmap string _]); the database is a record of the four
      collections the modelled operations touch.
    - Every operation is a function from the database (and from whatever
      the environment supplies: the clock [Date.now()], the auto-generated
      document id, the random join code) to a result and a new database.
    - A JavaScript [throw new Error(msg)] is the [Err] case of [result];
      one constructor of [error] per message.
    - The in-memory descriptor table of the matcher is a JavaScript [Map],
      iterated in insertion order, hence an association list.
    - Times are integers (milliseconds).  A JavaScript number is the
      rational it denotes; subtraction, addition, multiplication and
      square root round to the nearest double (ties to even), the
      conversion to [Float32Array] rounds to the nearest single, and the
      constants [0.4] and [0.8] of the source are the doubles so written.
      [NaN] and the infinities are left out.  Console output and the
      debug [fetch] calls are left out as well. *)

From Stdlib Require Import ZArith QArith Qminmax Qround Qabs Bool Lia.
From stdpp Require Import base option list gmap strings fin_maps pretty sorting.

Local Open Scope Z_scope.

(** ** Errors and results *)

Inductive error : Set :=
  | SessionAlreadyActive   (* "A session is already active for this class section." *)
  | SessionNotFound        (* "Session not found" *)
  | SessionInactive        (* "Session is inactive" *)
  | StudentNotFound        (* "Student not found" / "Student not found for ..." *)
  | NoFaceDescriptors      (* "No face descriptors found. Please try capturing again." *)
  | DocumentNotFound       (* Firestore: updateDoc on a document that does not exist *)
  | WriteRejected.         (* Firestore: a write the backend refuses or cannot reach *)

Inductive result (A : Type) : Type :=
  | Ok (a : A)
  | Err (e : error).
Arguments Ok {A} a.
Arguments Err {A} e.

Definition is_ok {A} (r : result A) : bool :=
  match r with Ok _ => true | Err _ => false end.

(** ** Documents ([store.ts]) *)

Inductive session_mode : Set := demo | live.

Module Session.
Record t : Type := mk {
  id : string;
  teacherId : string;
  sectionId : string;
  subjectId : string;
  isActive : bool;
  mode : session_mode;
  startTime : Z;
  endTime : Z;
  expiresAt : Z;
  code : string;
  createdAt : Z
}.

(** [{ ...sessionData, id: docId }] *)
Definition with_id (s : t) (i : string) : t :=
  mk i (teacherId s) (sectionId s) (subjectId s) (isActive s) (mode s)
     (startTime s) (endTime s) (expiresAt s) (code s) (createdAt s).

(** The partial update [{ isActive: false, endTime: now }]. *)
Definition ended (s : t) (now : Z) : t :=
  mk (id s) (teacherId s) (sectionId s) (subjectId s) false (mode s)
     (startTime s) now (expiresAt s) (code s) (createdAt s).
End Session.

Module AttendanceRecord.
Record t : Type := mk {
  id : string;
  studentId : string;
  subjectId : string;
  teacherId : string;
  sectionId : string;
  timestamp : Z;
  period : Z;
  topic : option string;
  present : bool;
  createdAt : Z
}.
End AttendanceRecord.

Module AuditLog.
Record details_t : Type := mk_details {
  subjectId : string;
  sectionId : string;
  period : Z;
  present : bool
}.
Record t : Type := mk {
  id : string;
  actorId : string;
  actorRole : string;
  action : string;
  target : string;
  timestamp : Z;
  details : details_t;
  createdAt : Z
}.
End AuditLog.

(** A student document.  Only the fields the modelled operations read or
    write are kept; [faceDescriptors] is the object [{desc_0: [...], ...}]
    and is absent until a registration wrote it. *)
Module Student.
Record t : Type := mk {
  id : string;
  name : string;
  rollNumber : string;
  sectionId : string;
  faceRegistered : bool;
  faceDescriptors : option (gmap string (list Q));
  faceDescriptorCount : option nat;
  updatedAt : Z
}.

Definition with_id (s : t) (i : string) : t :=
  mk i (name s) (rollNumber s) (sectionId s) (faceRegistered s)
     (faceDescriptors s) (faceDescriptorCount s) (updatedAt s).
End Student.

(** ** The database *)

Record Firestore : Type := mkFirestore {
  SESSIONS : gmap string Session.t;
  ATTENDANCE_LOGS : gmap string AttendanceRecord.t;
  STUDENTS : gmap string Student.t;
  AUDITS : gmap string AuditLog.t
}.

Definition emptyFirestore : Firestore := mkFirestore ∅ ∅ ∅ ∅.

Definition set_SESSIONS (db : Firestore) (m : gmap string Session.t) : Firestore :=
  mkFirestore m (ATTENDANCE_LOGS db) (STUDENTS db) (AUDITS db).
Definition set_ATTENDANCE_LOGS (db : Firestore) (m : gmap string AttendanceRecord.t) : Firestore :=
  mkFirestore (SESSIONS db) m (STUDENTS db) (AUDITS db).
Definition set_STUDENTS (db : Firestore) (m : gmap string Student.t) : Firestore :=
  mkFirestore (SESSIONS db) (ATTENDANCE_LOGS db) m (AUDITS db).
Definition set_AUDITS (db : Firestore) (m : gmap string AuditLog.t) : Firestore :=
  mkFirestore (SESSIONS db) (ATTENDANCE_LOGS db) (STUDENTS db) m.

(** [getDocs(query(collection, where ...))]: the documents that satisfy
    the conjunction of the [where] clauses, with their ids.  The order of
    the snapshot is the order in which the map enumerates its entries;
    where the code takes [docs[0]], the properties below are stated for
    situations in which the query has one answer. *)
Definition getDocs {V : Type} (P : V → bool) (c : gmap string V) : list (string * V) :=
  filter (λ kv, P kv.2 = true) (map_to_list c).

(** ** Session management ([firebaseService.ts]) *)

Definition activeInSection (sectionId : string) (s : Session.t) : bool :=
  bool_decide (Session.sectionId s = sectionId) && Session.isActive s.

(** [createAttendanceSession].  [newId] is the auto-generated id of
    [doc(collection(db, SESSIONS))], [now] the clock, [code] the random
    four-digit join code, [durationMinutes] the caller's value (60 when
    the caller omits it). *)
Definition newSession (newId : string) (now : Z) (code : string)
    (teacherId sectionId subjectId : string) (mode : session_mode)
    (durationMinutes : Z) : Session.t :=
  let startTime := now in
  let endTime := startTime + durationMinutes * 60 * 1000 in
  Session.mk newId teacherId sectionId subjectId true mode
             startTime endTime endTime code now.

Definition createAttendanceSession (db : Firestore) (newId : string) (now : Z)
    (code : string) (teacherId sectionId subjectId : string)
    (mode : session_mode) (durationMinutes : Z) : result Session.t * Firestore :=
  match getDocs (activeInSection sectionId) (SESSIONS db) with
  | _ :: _ => (Err SessionAlreadyActive, db)
  | [] =>
      let s := newSession newId now code teacherId sectionId subjectId mode durationMinutes in
      (Ok s, set_SESSIONS db (<[newId := s]> (SESSIONS db)))
  end.

(** [endAttendanceSession]: [updateDoc] fails on a missing document. *)
Definition endAttendanceSession (db : Firestore) (now : Z) (sessionId : string)
    : result unit * Firestore :=
  match SESSIONS db !! sessionId with
  | None => (Err DocumentNotFound, db)
  | Some s => (Ok tt, set_SESSIONS db (<[sessionId := Session.ended s now]> (SESSIONS db)))
  end.

(** [getActiveSessionForSection]: the first active session of the section;
    an overdue one is closed on the way and [null] is returned.  The
    [catch] turns any failure into [null]. *)
Definition getActiveSessionForSection (db : Firestore) (now : Z) (sectionId : string)
    : option Session.t * Firestore :=
  match getDocs (activeInSection sectionId) (SESSIONS db) with
  | [] => (None, db)
  | (docId, sessionData) :: _ =>
      if Session.expiresAt sessionData <? now then
        (None, (endAttendanceSession db now docId).2)
      else (Some (Session.with_id sessionData docId), db)
  end.

(** ** Students *)

(** [findStudentByRollNumber]: first document of the roll-number query,
    with the document id written over the [id] field. *)
Definition findStudentByRollNumber (db : Firestore) (rollNumber : string)
    : option Student.t :=
  match getDocs (λ s, bool_decide (Student.rollNumber s = rollNumber)) (STUDENTS db) with
  | [] => None
  | (docId, data) :: _ => Some (Student.with_id data docId)
  end.

Definition getStudentFromFirebase (db : Firestore) (studentId : string)
    : option Student.t :=
  match STUDENTS db !! studentId with
  | None => None
  | Some data => Some (Student.with_id data studentId)
  end.

(** ** Attendance ledger *)

(** The [where] clauses of the duplicate check in [markSessionAttendance]. *)
Definition alreadyMarked (student : Student.t) (session : Session.t)
    (r : AttendanceRecord.t) : bool :=
  bool_decide (AttendanceRecord.studentId r = Student.id student)
  && bool_decide (AttendanceRecord.sectionId r = Session.sectionId session)
  && bool_decide (AttendanceRecord.subjectId r = Session.subjectId session)
  && (Session.startTime session <? AttendanceRecord.timestamp r).

(** [markSessionAttendance]; [newId] is the auto-generated id of the new
    attendance document. *)
Definition markSessionAttendance (db : Firestore) (newId : string) (now : Z)
    (sessionId rollNumber : string) : result bool * Firestore :=
  match SESSIONS db !! sessionId with
  | None => (Err SessionNotFound, db)
  | Some session =>
      if negb (Session.isActive session) then (Err SessionInactive, db)
      else
        match findStudentByRollNumber db rollNumber with
        | None => (Err StudentNotFound, db)
        | Some student =>
            match getDocs (alreadyMarked student session) (ATTENDANCE_LOGS db) with
            | _ :: _ => (Ok true, db)
            | [] =>
                let record :=
                  AttendanceRecord.mk newId (Student.id student)
                    (Session.subjectId session) (Session.teacherId session)
                    (Session.sectionId session) now 0 None true now in
                (Ok true,
                 set_ATTENDANCE_LOGS db (<[newId := record]> (ATTENDANCE_LOGS db)))
            end
        end
  end.

(** Argument of [addAttendanceToFirebase]:
    [Omit<AttendanceRecord, "id" | "timestamp"> & { timestamp?: number }]. *)
Module AttendanceInput.
Record t : Type := mk {
  studentId : string;
  subjectId : string;
  teacherId : string;
  sectionId : string;
  timestamp : option Z;
  period : Z;
  topic : option string;
  present : bool
}.
End AttendanceInput.

(** Whether the backend accepts a [setDoc]. *)
Inductive write_outcome : Set := Committed | Rejected.

(** [addAttendanceToFirebase].  The attendance write is inside the outer
    [try] (a failure is rethrown); the audit write has a [try] of its own
    whose [catch] only warns. *)
Definition addAttendanceToFirebase (db : Firestore)
    (attendanceId auditId : string) (now : Z)
    (attendanceWrite auditWrite : write_outcome)
    (record : AttendanceInput.t) : result AttendanceRecord.t * Firestore :=
  let attendance :=
    AttendanceRecord.mk attendanceId
      (AttendanceInput.studentId record) (AttendanceInput.subjectId record)
      (AttendanceInput.teacherId record) (AttendanceInput.sectionId record)
      (default now (AttendanceInput.timestamp record))
      (AttendanceInput.period record) (AttendanceInput.topic record)
      (AttendanceInput.present record) now in
  match attendanceWrite with
  | Rejected => (Err WriteRejected, db)
  | Committed =>
      let db1 := set_ATTENDANCE_LOGS db (<[attendanceId := attendance]> (ATTENDANCE_LOGS db)) in
      let audit :=
        AuditLog.mk auditId (AttendanceInput.teacherId record) "teacher"
          "add_attendance" (AttendanceInput.studentId record) now
          (AuditLog.mk_details (AttendanceInput.subjectId record)
             (AttendanceInput.sectionId record) (AttendanceInput.period record)
             (AttendanceInput.present record))
          now in
      let db2 :=
        match auditWrite with
        | Committed => set_AUDITS db1 (<[auditId := audit]> (AUDITS db1))
        | Rejected => db1
        end in
      (Ok attendance, db2)
  end.

(** ** Descriptor store *)

(** [descriptors.forEach((desc, index) => descriptorsObject[`desc_${index}`] = desc)] *)
Fixpoint descriptorsObjectFrom (index : nat) (descriptors : list (list Q))
    (acc : gmap string (list Q)) : gmap string (list Q) :=
  match descriptors with
  | [] => acc
  | desc :: rest =>
      descriptorsObjectFrom (S index) rest (<["desc_" +:+ pretty index := desc]> acc)
  end.

(** [saveFaceDescriptors]: one [updateDoc] on the student document. *)
Definition saveFaceDescriptors (db : Firestore) (now : Z) (studentId : string)
    (descriptors : list (list Q)) : result unit * Firestore :=
  let descriptorsObject := descriptorsObjectFrom 0 descriptors ∅ in
  match STUDENTS db !! studentId with
  | None => (Err DocumentNotFound, db)
  | Some st =>
      let st' :=
        Student.mk (Student.id st) (Student.name st) (Student.rollNumber st)
          (Student.sectionId st) true (Some descriptorsObject)
          (Some (length descriptors)) now in
      (Ok tt, set_STUDENTS db (<[studentId := st']> (STUDENTS db)))
  end.

(** ** Numbers

    A finite double or single is the rational it denotes.  [roundBinary
    prec emin] rounds a rational to the nearest number with [prec]
    significant bits whose last place is not below [2^emin], ties to
    even: [prec = 53], [emin = -1074] for doubles, [prec = 24],
    [emin = -149] for singles.  Overflow is not modelled: descriptor
    components, distances and confidences stay far below the largest
    finite single. *)

(** [2^z], also for negative [z]. *)
Definition pow2 (z : Z) : Q :=
  if 0 <=? z then inject_Z (2 ^ z) else 1 # Z.to_pos (2 ^ (- z)).

(** The [e] with [2^e <= a < 2^(e+1)], for [a > 0]. *)
Definition Qlog2floor (a : Q) : Z :=
  let l := Z.log2 (Qnum a) - Z.log2 (Zpos (Qden a)) in
  if Qle_bool (pow2 l) a then l else l - 1.

(** The nearest integer, the even one of two equally near. *)
Definition roundHalfEven (r : Q) : Z :=
  let f := Qfloor r in
  match Qcompare (r - inject_Z f) (1 # 2) with
  | Lt => f
  | Gt => f + 1
  | Eq => if Z.even f then f else f + 1
  end.

Definition roundBinary (prec emin : Z) (x : Q) : Q :=
  if Qeq_bool x 0 then 0%Q
  else
    let a := Qabs x in
    let q := Z.max (Qlog2floor a - (prec - 1)) emin in
    let n := roundHalfEven (a / pow2 q) in
    Qred ((if Qle_bool 0 x then 1 else -1) * inject_Z n * pow2 q).

(** The correctly rounded square root of a number that is not negative. *)
Definition sqrtBinary (prec emin : Z) (x : Q) : Q :=
  if Qle_bool x 0 then 0%Q
  else
    let e := Qlog2floor x / 2 in
    let q := Z.max (e - (prec - 1)) emin in
    let y := (x / (pow2 q * pow2 q))%Q in
    let f := Z.sqrt (Qfloor y) in
    let n :=
      match Qcompare y (inject_Z (f * f + f) + (1 # 4)) with
      | Lt => f
      | Gt => f + 1
      | Eq => if Z.even f then f else f + 1
      end in
    Qred (inject_Z n * pow2 q).

(** The nearest double. *)
Definition round64 (x : Q) : Q := roundBinary 53 (-1074) x.

(** [Math.fround] and the element conversion of [new Float32Array(...)]:
    the nearest single. *)
Definition fround (x : Q) : Q := roundBinary 24 (-149) x.

(** [a + b], [a - b], [a * b] and [Math.sqrt(a)] on doubles. *)
Definition fadd (a b : Q) : Q := round64 (a + b).
Definition fsub (a b : Q) : Q := round64 (a - b).
Definition fmul (a b : Q) : Q := round64 (a * b).
Definition fsqrt (a : Q) : Q := sqrtBinary 53 (-1074) a.

Arguments round64 x : simpl never.
Arguments fround x : simpl never.
Arguments fsub a b : simpl never.

(** The doubles written [0.4] and [0.8] in the source:
    3602879701896397 / 2^53 and 3602879701896397 / 2^52. *)
Definition double_0_4 : Q := Eval vm_compute in round64 (4 # 10).
Definition double_0_8 : Q := Eval vm_compute in round64 (8 # 10).

(** ** The in-memory descriptor table ([faceRecognition.ts]) *)

(** [Map<string, Float32Array[]>], in insertion order. *)
Definition FaceDescriptors : Type := list (string * list (list Q)).

Fixpoint Map_get {V : Type} (m : list (string * V)) (k : string) : option V :=
  match m with
  | [] => None
  | (k', v) :: rest => if bool_decide (k' = k) then Some v else Map_get rest k
  end.

(** [Map.set]: an existing key keeps its position, a new one goes last. *)
Fixpoint Map_set {V : Type} (m : list (string * V)) (k : string) (v : V)
    : list (string * V) :=
  match m with
  | [] => [(k, v)]
  | (k', v') :: rest =>
      if bool_decide (k' = k) then (k, v) :: rest else (k', v') :: Map_set rest k v
  end.

(** Accepted descriptor lengths: FaceAPI (128), OpenCV (100), or above 50. *)
Definition acceptedLength (desc : list Q) : bool :=
  (length desc =? 128)%nat || (length desc =? 100)%nat || (50 <? length desc)%nat.

(** [loadFaceDescriptorsFromFirebase], from the map the Firestore read
    ([loadAllFaceDescriptors] / [loadFaceDescriptorsForSection]) came back
    with: the table is cleared, then refilled with the descriptors of an
    accepted length, each converted by [new Float32Array(desc)]. *)
Definition loadFaceDescriptorsFromFirebase
    (descriptorsMap : list (string * list (list Q))) : FaceDescriptors :=
  fold_left
    (λ (table : FaceDescriptors) (entry : string * list (list Q)),
       let (rollNumber, descriptors) := entry in
       if (0 <? length descriptors)%nat then
         let float32Descriptors :=
           map (map fround) (filter (λ d, acceptedLength d = true) descriptors) in
         if (0 <? length float32Descriptors)%nat
         then Map_set table rollNumber float32Descriptors
         else table
       else table)
    descriptorsMap [].

(** The student lookup of [saveFaceDescriptorsToFirebase]: by roll number
    first, by document id otherwise. *)
Definition resolveStudent (db : Firestore) (studentIdOrRoll : string)
    : option Student.t :=
  match findStudentByRollNumber db studentIdOrRoll with
  | Some s => Some s
  | None => getStudentFromFirebase db studentIdOrRoll
  end.

(** [saveFaceDescriptorsToFirebase]: the registration entry point; it
    resolves the student, takes the captured descriptors out of the
    in-memory table and hands them to [saveFaceDescriptors]. *)
Definition saveFaceDescriptorsToFirebase (db : Firestore)
    (faceDescriptors : FaceDescriptors) (now : Z) (studentIdOrRoll : string)
    : result unit * Firestore :=
  match resolveStudent db studentIdOrRoll with
  | None => (Err StudentNotFound, db)
  | Some student =>
      let missing (d : option (list (list Q))) : bool :=
        match d with None => true | Some l => (length l =? 0)%nat end in
      let descriptors := Map_get faceDescriptors (Student.rollNumber student) in
      let descriptors :=
        if missing descriptors then Map_get faceDescriptors studentIdOrRoll
        else descriptors in
      match descriptors with
      | None => (Err NoFaceDescriptors, db)
      | Some l =>
          if (length l =? 0)%nat then (Err NoFaceDescriptors, db)
          else saveFaceDescriptors db now (Student.id student) l
      end
  end.

(** ** The matcher ([recognizeFaces]) *)

Module Box.
Record t : Type := mk { x : Q; y : Q; width : Q; height : Q }.
End Box.

(** One face found by [detectFaces]: its descriptor and its box. *)
Module Detection.
Record t : Type := mk { descriptor : list Q; box : Box.t }.
End Detection.

(** One entry of the list [recognizeFaces] returns. *)
Module Recognition.
Record t : Type := mk {
  studentId : string;
  confidence : Q;
  box : Box.t;
  isRecognized : bool
}.
End Recognition.

Module BestMatch.
Record t : Type := mk { studentId : string; confidence : Q }.
End BestMatch.

(** [a > b] on numbers. *)
Definition Qgtb (a b : Q) : bool := negb (Qle_bool a b).

(** [Math.max(0, 1 - distance)] *)
Definition confidenceOf (distance : Q) : Q := Qmax 0 (fsub 1 distance).

Arguments confidenceOf distance : simpl never.

(** The box of the detection, copied field by field. *)
Definition copyBox (b : Box.t) : Box.t :=
  Box.mk (Box.x b) (Box.y b) (Box.width b) (Box.height b).

Definition unknownFace (d : Detection.t) : Recognition.t :=
  Recognition.mk "unknown" 0 (copyBox (Detection.box d)) false.

Section Matcher.

(** [faceapi.euclideanDistance], a function of the face-api library:
    [None] when the call throws (it does on arrays of different
    lengths). *)
Variable euclideanDistance : list Q → list Q → option Q.

(** The inner [for (const descriptor of descriptors)] loop.  The outer
    [option] is [None] when an exception escapes; the inner one is
    [bestMatch]. *)
Fixpoint scanDescriptors (faceDescriptor : list Q) (studentId : string)
    (descriptors : list (list Q)) (bestMatch : option BestMatch.t)
    : option (option BestMatch.t) :=
  match descriptors with
  | [] => Some bestMatch
  | descriptor :: rest =>
      match euclideanDistance faceDescriptor descriptor with
      | None => None
      | Some distance =>
          let confidence := confidenceOf distance in
          if Qgtb confidence double_0_4
             && match bestMatch with
                | None => true
                | Some b => Qgtb confidence (BestMatch.confidence b)
                end
          then
            let bestMatch' := Some (BestMatch.mk studentId confidence) in
            if Qgtb confidence double_0_8 then Some bestMatch'
            else scanDescriptors faceDescriptor studentId rest bestMatch'
          else scanDescriptors faceDescriptor studentId rest bestMatch
      end
  end.

(** The outer [for (const [studentId, descriptors] of faceDescriptors.entries())]. *)
Fixpoint scanStudents (faceDescriptor : list Q) (entries : FaceDescriptors)
    (bestMatch : option BestMatch.t) : option (option BestMatch.t) :=
  match entries with
  | [] => Some bestMatch
  | (studentId, descriptors) :: rest =>
      match scanDescriptors faceDescriptor studentId descriptors bestMatch with
      | None => None
      | Some bestMatch' =>
          match bestMatch' with
          | Some b =>
              if Qgtb (BestMatch.confidence b) double_0_8 then Some bestMatch'
              else scanStudents faceDescriptor rest bestMatch'
          | None => scanStudents faceDescriptor rest bestMatch'
          end
      end
  end.

(** The body of [for (const detection of detections)]: one entry pushed. *)
Definition recognizeOne (faceDescriptors : FaceDescriptors)
    (detection : Detection.t) : option Recognition.t :=
  match scanStudents (Detection.descriptor detection) faceDescriptors None with
  | None => None
  | Some (Some bestMatch) =>
      Some (Recognition.mk (BestMatch.studentId bestMatch)
              (BestMatch.confidence bestMatch)
              (copyBox (Detection.box detection)) true)
  | Some None => Some (unknownFace detection)
  end.

Fixpoint recognizeAll (faceDescriptors : FaceDescriptors)
    (detections : list Detection.t) : option (list Recognition.t) :=
  match detections with
  | [] => Some []
  | detection :: rest =>
      match recognizeOne faceDescriptors detection with
      | None => None
      | Some r =>
          match recognizeAll faceDescriptors rest with
          | None => None
          | Some rs => Some (r :: rs)
          end
      end
  end.

(** The [try] block of [recognizeFaces].  [detections] is what
    [detectFaces] returned for the image, [faceDescriptors] the table in
    memory, [descriptorsMap] what the Firestore read returns should the
    table have to be reloaded.  Result: [None] when an exception reaches
    the [catch], and the table as the call leaves it. *)
Definition recognizeFaces_try (detections : list Detection.t)
    (faceDescriptors : FaceDescriptors)
    (descriptorsMap : list (string * list (list Q)))
    : option (list Recognition.t) * FaceDescriptors :=
  match detections with
  | [] => (Some [], faceDescriptors)
  | _ :: _ =>
      match faceDescriptors with
      | [] =>
          let reloaded := loadFaceDescriptorsFromFirebase descriptorsMap in
          match reloaded with
          | [] => (Some (map unknownFace detections), reloaded)
          | _ :: _ => (recognizeAll reloaded detections, reloaded)
          end
      | _ :: _ => (recognizeAll faceDescriptors detections, faceDescriptors)
      end
  end.

(** [recognizeFaces]: the [catch] logs and returns the empty list. *)
Definition recognizeFaces (detections : list Detection.t)
    (faceDescriptors : FaceDescriptors)
    (descriptorsMap : list (string * list (list Q)))
    : list Recognition.t * FaceDescriptors :=
  match recognizeFaces_try detections faceDescriptors descriptorsMap with
  | (Some recognitions, table) => (recognitions, table)
  | (None, table) => ([], table)
  end.

(** The confidences of a probe against every stored descriptor of the
    table, [None] if some distance is undefined. *)
Definition confidencesOf (faceDescriptor : list Q) (entries : FaceDescriptors)
    : option (list Q) :=
  mapM (λ d, confidenceOf <$> euclideanDistance faceDescriptor d)
       (concat (map snd entries)).

End Matcher.

(** Largest element of a list of confidences (confidences are never
    negative, so [0] for the empty list). *)
Definition maxConfidence (cs : list Q) : Q := fold_right Qmax 0%Q cs.

(** The formula of face-api.js's [euclideanDistance], evaluated in double
    arithmetic, to run the matcher on concrete descriptors: both arrays
    are copied into plain arrays, and the result is
    [Math.sqrt(a.map((val, i) => val - b[i])
                .reduce((res, diff) => res + Math.pow(diff, 2), 0))];
    arrays of different lengths raise an exception.  [Math.pow(diff, 2)]
    is the rounded square. *)
Definition euclideanDistance64 (arr1 arr2 : list Q) : option Q :=
  if (length arr1 =? length arr2)%nat then
    Some (fsqrt (fold_left (λ (res diff : Q), fadd res (fmul diff diff))
                   (map (λ p : Q * Q, fsub p.1 p.2) (zip arr1 arr2)) 0%Q))
  else None.

(** ** Interleaved executions of [createAttendanceSession]

    A call awaits two Firestore round trips: the [getDocs] of the check,
    then the [setDoc].  Another client's request can be served between
    the two. *)

Record CreateArgs : Type := mkCreateArgs {
  ca_newId : string;
  ca_now : Z;
  ca_code : string;
  ca_teacherId : string;
  ca_sectionId : string;
  ca_subjectId : string;
  ca_mode : session_mode;
  ca_durationMinutes : Z
}.

Inductive CreateCall : Type :=
  | BeforeQuery (a : CreateArgs)
  | BeforeWrite (a : CreateArgs)
  | Returned (r : result Session.t).

Definition create_step (db : Firestore) (c : CreateCall) : CreateCall * Firestore :=
  match c with
  | BeforeQuery a =>
      match getDocs (activeInSection (ca_sectionId a)) (SESSIONS db) with
      | _ :: _ => (Returned (Err SessionAlreadyActive), db)
      | [] => (BeforeWrite a, db)
      end
  | BeforeWrite a =>
      let s := newSession (ca_newId a) (ca_now a) (ca_code a) (ca_teacherId a)
                 (ca_sectionId a) (ca_subjectId a) (ca_mode a) (ca_durationMinutes a) in
      (Returned (Ok s), set_SESSIONS db (<[ca_newId a := s]> (SESSIONS db)))
  | Returned r => (Returned r, db)
  end.

(** Two clients; the schedule says whose next round trip is served
    ([true]: the first client). *)
Fixpoint run_two (schedule : list bool) (db : Firestore) (c1 c2 : CreateCall)
    : Firestore * CreateCall * CreateCall :=
  match schedule with
  | [] => (db, c1, c2)
  | true :: rest => let (c1', db') := create_step db c1 in run_two rest db' c1' c2
  | false :: rest => let (c2', db') := create_step db c2 in run_two rest db' c1 c2'
  end.

(** ** Executions that serve one operation at a time *)

Inductive Operation : Type :=
  | CreateSession (newId : string) (now : Z) (code : string)
      (teacherId sectionId subjectId : string) (mode : session_mode)
      (durationMinutes : Z)
  | EndSession (now : Z) (sessionId : string)
  | GetActiveSession (now : Z) (sectionId : string)
  | MarkAttendance (newId : string) (now : Z) (sessionId rollNumber : string).

Definition run (op : Operation) (db : Firestore) : Firestore :=
  match op with
  | CreateSession newId now code teacherId sectionId subjectId mode durationMinutes =>
      (createAttendanceSession db newId now code teacherId sectionId subjectId
         mode durationMinutes).2
  | EndSession now sessionId => (endAttendanceSession db now sessionId).2
  | GetActiveSession now sectionId => (getActiveSessionForSection db now sectionId).2
  | MarkAttendance newId now sessionId rollNumber =>
      (markSessionAttendance db newId now sessionId rollNumber).2
  end.

(** States reached from a database without sessions. *)
Inductive reachable : Firestore → Prop :=
  | reachable_init db : SESSIONS db = ∅ → reachable db
  | reachable_step op db : reachable db → reachable (run op db).

(** At most one session of the section has [isActive = true]. *)
Definition at_most_one_active (sessions : gmap string Session.t) (sectionId : string) : Prop :=
  ∀ i j s t,
    sessions !! i = Some s → sessions !! j = Some t →
    Session.sectionId s = sectionId → Session.sectionId t = sectionId →
    Session.isActive s = true → Session.isActive t = true →
    i = j.

(** The attendance records the duplicate check of [markSessionAttendance]
    takes to be those of a student in a session. *)
Definition recordsFor (db : Firestore) (student : Student.t) (session : Session.t)
    : list (string * AttendanceRecord.t) :=
  getDocs (alreadyMarked student session) (ATTENDANCE_LOGS db).

(** ** Vocabulary of the properties *)

(** Every section has at most one active session. *)
Definition exclusive (db : Firestore) : Prop :=
  ∀ sectionId, at_most_one_active (SESSIONS db) sectionId.

Definition hasActiveSession (db : Firestore) (sectionId : string) : Prop :=
  ∃ i s, SESSIONS db !! i = Some s ∧
         Session.sectionId s = sectionId ∧ Session.isActive s = true.

(** Every confidence of the list is at or below the threshold 0.4. *)
Definition allAtOrBelow (cs : list Q) : Prop := Forall (λ c, (c <= double_0_4)%Q) cs.

(** A best match, if there is one, has a confidence above 0.4. *)
Definition aboveThreshold (bestMatch : option BestMatch.t) : Prop :=
  ∀ b, bestMatch = Some b → (double_0_4 < BestMatch.confidence b)%Q.

(** [c] is the confidence of the probe against the stored descriptor [d]. *)
Definition confidenceIs (euclideanDistance : list Q → list Q → option Q)
    (faceDescriptor : list Q) (d : list Q) (c : Q) : Prop :=
  confidenceOf <$> euclideanDistance faceDescriptor d = Some c.


(** ** Example data *)

Module Examples.

Definition createA : CreateArgs :=
  mkCreateArgs "sessA" 1000 "4821" "t1" "CSE-A" "math" demo 10.
Definition createB : CreateArgs :=
  mkCreateArgs "sessB" 1001 "7305" "t2" "CSE-A" "physics" demo 10.

(** Both checks are served before either write. *)
Definition interleaved : Firestore * CreateCall * CreateCall :=
  run_two [true; false; true; false] emptyFirestore
          (BeforeQuery createA) (BeforeQuery createB).

(** A database holding one session of CSE-A, created at time 1000 for
    ten minutes, and one student of that section. *)
Definition student1 : Student.t :=
  Student.mk "stu1" "Asha" "R1" "CSE-A" false None None 0.

Definition dbStudents : Firestore :=
  mkFirestore ∅ ∅ {["stu1" := student1]} ∅.

Definition dbSession : Firestore :=
  run (CreateSession "sessA" 1000 "4821" "t1" "CSE-A" "math" demo 10) dbStudents.

Definition sessionA : Session.t :=
  newSession "sessA" 1000 "4821" "t1" "CSE-A" "math" demo 10.

(** The same student marked twice while the clock reads the session's
    start time. *)
Definition markedOnce : Firestore :=
  (markSessionAttendance dbSession "att1" 1000 "sessA" "R1").2.
Definition markedTwice : Firestore :=
  (markSessionAttendance markedOnce "att2" 1000 "sessA" "R1").2.

(** A student whose face is registered with one stored descriptor. *)
Definition student2 : Student.t :=
  Student.mk "stu2" "Binod" "R2" "CSE-A" true
    (Some {["desc_0" := repeat (1 # 8)%Q 128]}) (Some 1%nat) 500.

Definition dbRegistered : Firestore :=
  mkFirestore ∅ ∅ {["stu2" := student2]} ∅.

(** One registered student whose only descriptor is the origin of the
    128-dimensional space, and three faces, all of single-precision
    components.  [faceHalf] and [faceFar] are at distance 0.5 and 0.75
    from the origin.  The squares of the six components of
    [faceAtThreshold] add up, without rounding, to
    6485183463413513 / 2^54, whose rounded square root is the double 0.6:
    its confidence is 1 - 0.6, which is the double 0.4. *)
Definition tableR1 : FaceDescriptors := [("R1", [repeat 0%Q 128])].
Definition box1 : Box.t := Box.mk 10 20 64 64.
Definition faceHalf : Detection.t :=
  Detection.mk ((1 # 2)%Q :: repeat 0%Q 127) box1.
Definition faceFar : Detection.t :=
  Detection.mk ((3 # 4)%Q :: repeat 0%Q 127) box1.
Definition faceAtThreshold : Detection.t :=
  Detection.mk
    ([10066329 # 16777216; 6951 # 33554432; 177 # 134217728;
      9 # 67108864; 1 # 33554432; 1 # 67108864]%Q ++ repeat 0%Q 122) box1.

End Examples.

(** * More of the service layer *)

(** ** Students ([firebaseService.ts]) *)

(** Errors of the administrative operations. *)
Inductive admin_error : Set :=
  | RollNumberExists       (* "Roll number already exists" *)
  | TeacherIdExists        (* "Teacher ID already exists" *)
  | SectionNameExists      (* "Section with this name already exists" *)
  | UndefinedField.        (* Firestore: setDoc, "Unsupported field value: undefined" *)

Inductive attempt (A : Type) : Type :=
  | Created (a : A)
  | Refused (e : admin_error).
Arguments Created {A} a.
Arguments Refused {A} e.

(** A property that is present: its value is not [undefined]. *)
Definition defined {A : Type} (o : option A) : bool :=
  match o with Some _ => true | None => false end.

(** Argument of [createStudentInFirebase]: [Omit<Student, "id" | "role" |
    "faceRegistered"> & { faceRegistered?: boolean; uid?: string }]. *)
Module StudentInput.
Record t : Type := mk {
  uid : option string;
  name : string;
  email : string;
  rollNumber : string;
  sectionId : string;
  faceRegistered : option bool;
  guardianPhone : option string;
  alternatePhone : option string;
  consentFaceData : option bool;
  consentParentNotify : option bool;
  department : option string;
  password : option string
}.

(** The optional properties the new document copies as they are. *)
Definition copiedDefined (x : t) : bool :=
  defined (uid x) && defined (guardianPhone x) && defined (alternatePhone x)
  && defined (consentFaceData x) && defined (consentParentNotify x)
  && defined (department x) && defined (password x).
End StudentInput.

(** [createStudentInFirebase]: refuses a roll number some document already
    carries; [newId] is the auto-generated document id.  The new document
    copies [uid], [guardianPhone], [alternatePhone], [consentFaceData],
    [consentParentNotify], [department] and [password] from the argument
    as they are, and [setDoc] throws on a property that is [undefined]
    (the database is opened with [getFirestore], which does not ignore
    undefined properties); only [faceRegistered] has a default.  The
    stored document is kept on the fields of [Student.t]. *)
Definition createStudentInFirebase (db : Firestore) (newId : string) (now : Z)
    (studentData : StudentInput.t) : attempt Student.t * Firestore :=
  match getDocs (λ s, bool_decide (Student.rollNumber s = StudentInput.rollNumber studentData))
                (STUDENTS db) with
  | _ :: _ => (Refused RollNumberExists, db)
  | [] =>
      let student :=
        Student.mk newId (StudentInput.name studentData)
          (StudentInput.rollNumber studentData) (StudentInput.sectionId studentData)
          (default false (StudentInput.faceRegistered studentData)) None None now in
      if StudentInput.copiedDefined studentData
      then (Created student, set_STUDENTS db (<[newId := student]> (STUDENTS db)))
      else (Refused UndefinedField, db)
  end.

(** [deleteStudentFromFirebase]: [deleteDoc] succeeds whether or not the
    document exists. *)
Definition deleteStudentFromFirebase (db : Firestore) (studentId : string)
    : bool * Firestore :=
  (true, set_STUDENTS db (delete studentId (STUDENTS db))).

Definition listStudentsBySection (db : Firestore) (sectionId : string)
    : list Student.t :=
  map (λ kv, Student.with_id kv.2 kv.1)
      (getDocs (λ s, bool_decide (Student.sectionId s = sectionId)) (STUDENTS db)).

(** ** Attendance listing *)

(** [{ ...doc.data(), id: doc.id }] *)
Definition attendanceWithId (r : AttendanceRecord.t) (i : string) : AttendanceRecord.t :=
  AttendanceRecord.mk i (AttendanceRecord.studentId r) (AttendanceRecord.subjectId r)
    (AttendanceRecord.teacherId r) (AttendanceRecord.sectionId r)
    (AttendanceRecord.timestamp r) (AttendanceRecord.period r)
    (AttendanceRecord.topic r) (AttendanceRecord.present r)
    (AttendanceRecord.createdAt r).

Definition getAttendanceForStudent (db : Firestore) (studentId : string)
    : list AttendanceRecord.t :=
  map (λ kv, attendanceWithId kv.2 kv.1)
      (getDocs (λ r, bool_decide (AttendanceRecord.studentId r = studentId))
               (ATTENDANCE_LOGS db)).

(** ** Loading stored descriptors *)

(** [a <= b] on strings, the order of [Array.prototype.sort()]. *)
Definition string_le (a b : string) : Prop := String.leb a b = true.

#[global] Instance string_le_dec a b : Decision (string_le a b).
Proof. unfold string_le. apply _. Defined.

(** [Object.keys(obj).sort().map(key => obj[key]).filter(...)]: the stored
    descriptors in the order of their keys, those of an accepted length. *)
Definition storedDescriptors (faceDescriptorsObj : gmap string (list Q))
    : list (list Q) :=
  filter (λ d, acceptedLength d = true)
    (omap (λ key, faceDescriptorsObj !! key)
       (merge_sort string_le (map fst (map_to_list faceDescriptorsObj)))).

(** [loadFaceDescriptorsForSection]: roll number to descriptors, for the
    students of the section that have some. *)
Definition loadFaceDescriptorsForSection (db : Firestore) (sectionId : string)
    : list (string * list (list Q)) :=
  fold_left
    (λ (descriptorsMap : list (string * list (list Q))) (student : Student.t),
       match Student.faceDescriptors student with
       | Some faceDescriptorsObj =>
           let descriptors := storedDescriptors faceDescriptorsObj in
           if (0 <? length descriptors)%nat
           then Map_set descriptorsMap (Student.rollNumber student) descriptors
           else descriptorsMap
       | None => descriptorsMap
       end)
    (listStudentsBySection db sectionId) [].

(** ** The in-memory table: registration and queries ([faceRecognition.ts]) *)

Definition Map_has {V : Type} (m : list (string * V)) (k : string) : bool :=
  match Map_get m k with Some _ => true | None => false end.

Definition Map_delete {V : Type} (m : list (string * V)) (k : string)
    : list (string * V) :=
  filter (λ kv, kv.1 ≠ k) m.

(** [registerStudentFace], from what [detectFaces] returned for the image:
    the first face's descriptor is pushed onto the student's array. *)
Definition registerStudentFace (detections : list Detection.t)
    (faceDescriptors : FaceDescriptors) (studentId : string)
    : bool * FaceDescriptors :=
  match detections with
  | [] => (false, faceDescriptors)
  | detection :: _ =>
      let faceDescriptor := Detection.descriptor detection in
      let table :=
        if Map_has faceDescriptors studentId then faceDescriptors
        else Map_set faceDescriptors studentId [] in
      let studentDescriptors := default [] (Map_get table studentId) in
      (true, Map_set table studentId (studentDescriptors ++ [faceDescriptor]))
  end.

Definition getStudentFaceDescriptors (faceDescriptors : FaceDescriptors)
    (studentId : string) : list (list Q) :=
  default [] (Map_get faceDescriptors studentId).

Definition clearStudentFaceData (faceDescriptors : FaceDescriptors)
    (studentId : string) : FaceDescriptors :=
  Map_delete faceDescriptors studentId.

Definition getRegisteredStudents (faceDescriptors : FaceDescriptors) : list string :=
  map fst faceDescriptors.

(** [totalDescriptors] of [getDebugInfo]:
    [values.reduce((sum, descs) => sum + descs.length, 0)]. *)
Definition totalDescriptors (faceDescriptors : FaceDescriptors) : nat :=
  fold_left (λ (sum : nat) (entry : string * list (list Q)), (sum + length entry.2)%nat)
            faceDescriptors 0%nat.

(** ** Teachers, sections and subjects ([firebaseService.ts])

    These operations touch three collections of their own. *)

Module Teacher.
Record t : Type := mk {
  id : string;
  uid : option string;
  name : string;
  email : string;
  employeeId : string;
  sectionIds : list string;
  department : option string;
  phone : option string;
  password : option string;
  createdAt : Z;
  updatedAt : Z
}.

Definition with_id (x : t) (i : string) : t :=
  mk i (uid x) (name x) (email x) (employeeId x) (sectionIds x) (department x)
     (phone x) (password x) (createdAt x) (updatedAt x).

(** The partial update [{ sectionIds: l, updatedAt: now }]. *)
Definition with_sectionIds (x : t) (l : list string) (now : Z) : t :=
  mk (id x) (uid x) (name x) (email x) (employeeId x) l (department x)
     (phone x) (password x) (createdAt x) now.
End Teacher.

(** Argument of [createTeacherInFirebase]: [Omit<Teacher, "id" | "role" |
    "sectionIds"> & { sectionIds?: string[]; uid?: string }]. *)
Module TeacherInput.
Record t : Type := mk {
  uid : option string;
  name : string;
  email : string;
  employeeId : string;
  sectionIds : option (list string);
  department : option string;
  phone : option string;
  password : option string
}.

(** The optional properties the new document copies as they are. *)
Definition copiedDefined (x : t) : bool :=
  defined (uid x) && defined (department x) && defined (phone x)
  && defined (password x).
End TeacherInput.

Module ClassSection.
Record t : Type := mk {
  id : string;
  name : string;
  subjectIds : list string;
  teacherIds : list string;
  createdAt : Z;
  updatedAt : Z
}.

Definition with_subjectIds (x : t) (l : list string) (now : Z) : t :=
  mk (id x) (name x) l (teacherIds x) (createdAt x) now.

Definition with_teacherIds (x : t) (l : list string) (now : Z) : t :=
  mk (id x) (name x) (subjectIds x) l (createdAt x) now.
End ClassSection.

Module Subject.
Record t : Type := mk {
  id : string;
  name : string;
  createdAt : Z;
  updatedAt : Z
}.

Definition with_id (x : t) (i : string) : t :=
  mk i (name x) (createdAt x) (updatedAt x).
End Subject.

Record Directory : Type := mkDirectory {
  TEACHERS : gmap string Teacher.t;
  SECTIONS : gmap string ClassSection.t;
  SUBJECTS : gmap string Subject.t
}.

(** [l.includes(x)] *)
Definition includes (l : list string) (x : string) : bool := bool_decide (x ∈ l).

(** [l.filter(id => id !== x)] *)
Definition without (l : list string) (x : string) : list string :=
  filter (λ i, i ≠ x) l.

(** [createTeacherInFirebase]: refuses an employee id some document
    already carries.  [uid], [department], [phone] and [password] are
    copied as they are, and [setDoc] throws on a property that is
    [undefined]; only [sectionIds] has a default. *)
Definition createTeacherInFirebase (dir : Directory) (newId : string) (now : Z)
    (teacherData : TeacherInput.t) : attempt Teacher.t * Directory :=
  match getDocs (λ x, bool_decide (Teacher.employeeId x = TeacherInput.employeeId teacherData))
                (TEACHERS dir) with
  | _ :: _ => (Refused TeacherIdExists, dir)
  | [] =>
      let teacher :=
        Teacher.mk newId (TeacherInput.uid teacherData) (TeacherInput.name teacherData)
          (TeacherInput.email teacherData) (TeacherInput.employeeId teacherData)
          (default [] (TeacherInput.sectionIds teacherData))
          (TeacherInput.department teacherData) (TeacherInput.phone teacherData)
          (TeacherInput.password teacherData) now now in
      if TeacherInput.copiedDefined teacherData
      then (Created teacher,
            mkDirectory (<[newId := teacher]> (TEACHERS dir)) (SECTIONS dir)
                        (SUBJECTS dir))
      else (Refused UndefinedField, dir)
  end.

(** [verifyTeacherLogin]: the first teacher with the employee id, if the
    stored password is the one given. *)
Definition verifyTeacherLogin (dir : Directory) (employeeId password : string)
    : option Teacher.t :=
  match getDocs (λ x, bool_decide (Teacher.employeeId x = employeeId)) (TEACHERS dir) with
  | [] => None
  | (docId, data) :: _ =>
      let teacher := Teacher.with_id data docId in
      if bool_decide (Teacher.password teacher = Some password) then Some teacher
      else None
  end.

(** [assignTeacherToSection]: both documents are read, the two updates go
    into one batch. *)
Definition assignTeacherToSection (dir : Directory) (now : Z)
    (teacherId sectionId : string) : Directory :=
  let teachers :=
    match TEACHERS dir !! teacherId with
    | Some teacher =>
        if includes (Teacher.sectionIds teacher) sectionId then TEACHERS dir
        else <[teacherId :=
                 Teacher.with_sectionIds teacher
                   (Teacher.sectionIds teacher ++ [sectionId]) now]> (TEACHERS dir)
    | None => TEACHERS dir
    end in
  let sections :=
    match SECTIONS dir !! sectionId with
    | Some section =>
        if includes (ClassSection.teacherIds section) teacherId then SECTIONS dir
        else <[sectionId :=
                 ClassSection.with_teacherIds section
                   (ClassSection.teacherIds section ++ [teacherId]) now]> (SECTIONS dir)
    | None => SECTIONS dir
    end in
  mkDirectory teachers sections (SUBJECTS dir).

Definition createSectionInFirebase (dir : Directory) (newId : string) (now : Z)
    (name : string) : attempt ClassSection.t * Directory :=
  match getDocs (λ x, bool_decide (ClassSection.name x = name)) (SECTIONS dir) with
  | _ :: _ => (Refused SectionNameExists, dir)
  | [] =>
      let section := ClassSection.mk newId name [] [] now now in
      (Created section,
       mkDirectory (TEACHERS dir) (<[newId := section]> (SECTIONS dir)) (SUBJECTS dir))
  end.

(** [deleteSectionFromFirebase]: one batch that takes the section out of
    every teacher listing it and deletes the section document. *)
Definition deleteSectionFromFirebase (dir : Directory) (now : Z) (sectionId : string)
    : bool * Directory :=
  let teachers :=
    (λ teacher,
       if includes (Teacher.sectionIds teacher) sectionId
       then Teacher.with_sectionIds teacher
              (without (Teacher.sectionIds teacher) sectionId) now
       else teacher) <$> TEACHERS dir in
  (true, mkDirectory teachers (delete sectionId (SECTIONS dir)) (SUBJECTS dir)).

Definition createSubjectInFirebase (dir : Directory) (newId : string) (now : Z)
    (name : string) : Subject.t * Directory :=
  let subject := Subject.mk newId name now now in
  (subject, mkDirectory (TEACHERS dir) (SECTIONS dir) (<[newId := subject]> (SUBJECTS dir))).

(** [addSubjectToSection]: nothing happens when the section does not
    exist or already lists the subject. *)
Definition addSubjectToSection (dir : Directory) (now : Z)
    (sectionId subjectId : string) : Directory :=
  match SECTIONS dir !! sectionId with
  | Some section =>
      if includes (ClassSection.subjectIds section) subjectId then dir
      else
        mkDirectory (TEACHERS dir)
          (<[sectionId :=
               ClassSection.with_subjectIds section
                 (ClassSection.subjectIds section ++ [subjectId]) now]> (SECTIONS dir))
          (SUBJECTS dir)
  | None => dir
  end.

(** [getSubjectsForSection]: the listed subjects that exist, in the order
    of the listing. *)
Definition getSubjectsForSection (dir : Directory) (sectionId : string)
    : list Subject.t :=
  match SECTIONS dir !! sectionId with
  | None => []
  | Some section =>
      omap (λ subjectId,
              (λ data, Subject.with_id data subjectId) <$> SUBJECTS dir !! subjectId)
           (ClassSection.subjectIds section)
  end.

(** [deleteSubjectFromFirebase]: one batch that takes the subject out of
    every section listing it and deletes the subject document. *)
Definition deleteSubjectFromFirebase (dir : Directory) (now : Z) (subjectId : string)
    : bool * Directory :=
  let sections :=
    (λ section,
       if includes (ClassSection.subjectIds section) subjectId
       then ClassSection.with_subjectIds section
              (without (ClassSection.subjectIds section) subjectId) now
       else section) <$> SECTIONS dir in
  (true, mkDirectory (TEACHERS dir) sections (delete subjectId (SUBJECTS dir))).

(** ** Timetable ([getTimetableForNow]) *)

Module TimetableEntry.
Record t : Type := mk {
  day : nat;
  startTime : string;
  endTime : string;
  sectionId : string;
  subjectId : string;
  period : Z
}.
End TimetableEntry.

Module TimetableSlot.
Record t : Type := mk {
  sectionId : string;
  subjectId : string;
  period : Z
}.
End TimetableSlot.

(** [n.toString().padStart(2, '0')] *)
Definition padStart2 (n : nat) : string :=
  let s := pretty n in
  if (String.length s <? 2)%nat then "0" +:+ s else s.

(** The clock as [HH:MM]. *)
Definition currentTimeOf (hours minutes : nat) : string :=
  padStart2 hours +:+ ":" +:+ padStart2 minutes.

(** [getTimetableForNow], from the day of the week (0 is Sunday), the
    hours and the minutes of the clock: the first entry of the day whose
    slot holds the current time, both compared as strings. *)
Definition getTimetableForNow (TIMETABLE : gmap string TimetableEntry.t)
    (day hours minutes : nat) : option TimetableSlot.t :=
  let currentTime := currentTimeOf hours minutes in
  if ((day =? 0) || (day =? 6))%nat then None
  else
    match
      List.find
        (λ doc : string * TimetableEntry.t,
           String.leb (TimetableEntry.startTime doc.2) currentTime
           && String.leb currentTime (TimetableEntry.endTime doc.2))
        (getDocs (λ e, bool_decide (TimetableEntry.day e = day)) TIMETABLE)
    with
    | Some doc =>
        Some (TimetableSlot.mk (TimetableEntry.sectionId doc.2)
                (TimetableEntry.subjectId doc.2) (TimetableEntry.period doc.2))
    | None => None
    end.

(** ** Vocabulary of the further properties *)

(** No two student documents carry the same roll number. *)
Definition unique_rolls (db : Firestore) : Prop :=
  ∀ i j s t,
    STUDENTS db !! i = Some s → STUDENTS db !! j = Some t →
    Student.rollNumber s = Student.rollNumber t → i = j.

(** No two sections carry the same name. *)
Definition unique_section_names (dir : Directory) : Prop :=
  ∀ i j s t,
    SECTIONS dir !! i = Some s → SECTIONS dir !! j = Some t →
    ClassSection.name s = ClassSection.name t → i = j.

(** The table never lists a student twice. *)
Definition keys_unique (faceDescriptors : FaceDescriptors) : Prop :=
  NoDup (map fst faceDescriptors).

(** Every student of the table has at least one descriptor, and every
    descriptor has an accepted length. *)
Definition well_loaded (faceDescriptors : FaceDescriptors) : Prop :=
  Forall (λ entry : string * list (list Q),
            entry.2 ≠ [] ∧ Forall (λ d, acceptedLength d = true) entry.2)
         faceDescriptors.

(** Whether an operation writes a new session document under this id. *)
Definition creates_under (op : Operation) (i : string) : Prop :=
  match op with
  | CreateSession newId _ _ _ _ _ _ _ => newId = i
  | _ => False
  end.

(** A sequence of operations, served one after the other. *)
Definition run_all (ops : list Operation) (db : Firestore) : Firestore :=
  fold_left (λ db op, run op db) ops db.

(** Some student document carries the roll number. *)
Definition rollTaken (db : Firestore) (rollNumber : string) : Prop :=
  ∃ i s, STUDENTS db !! i = Some s ∧ Student.rollNumber s = rollNumber.

(** The confidence a later candidate has to exceed: that of the best
    match so far, 0.4 when there is none. *)
Definition confidenceToBeat (bestMatch : option BestMatch.t) : Q :=
  match bestMatch with
  | Some b => BestMatch.confidence b
  | None => double_0_4
  end.

(** The scan stopped early on a confidence above 0.8. *)
Definition stoppedEarly (bestMatch : option BestMatch.t) : Prop :=
  ∃ b, bestMatch = Some b ∧ (double_0_8 < BestMatch.confidence b)%Q.

(** ** Further example data *)

Module Scenarios.

(** A student and a teacher entered with every property present. *)
Definition chitra : StudentInput.t :=
  StudentInput.mk (Some "uid9") "Chitra" "chitra@college.edu" "R9" "CSE-A" None
    (Some "555-0100") (Some "555-0101") (Some true) (Some true) (Some "CSE")
    (Some "pw9").

Definition faraday : TeacherInput.t :=
  TeacherInput.mk (Some "uid2") "Prof. Faraday" "ece@college.edu" "ECE001" None
    (Some "ECE") (Some "555-0102") (Some "password123").

Definition teacher1 : Teacher.t :=
  Teacher.mk "tch1" None "Dr. Rao" "rao@college.edu" "CSE001" [] None None
             (Some "secret") 0 0.

Definition sectionA : ClassSection.t := ClassSection.mk "secA" "CSE-A" [] [] 0 0.

Definition subjectDs : Subject.t := Subject.mk "subDs" "Data Structures" 0 0.

Definition directory1 : Directory :=
  mkDirectory {["tch1" := teacher1]} {["secA" := sectionA]} {["subDs" := subjectDs]}.

(** Monday, 09:00 to 09:50, first period. *)
Definition timetable1 : gmap string TimetableEntry.t :=
  {["tt1" := TimetableEntry.mk 1 "09:00" "09:50" "secA" "subDs" 1]}.

(** Two descriptors of 128 components: the doubles 0.1 and 0.25.  The
    first is not a single; [fround] takes it to 13421773 / 2^27. *)
Definition descriptorA : list Q := repeat (round64 (1 # 10)) 128.
Definition descriptorB : list Q := repeat (1 # 4)%Q 128.

End Scenarios.

(** * Properties *)

(** ** Queries *)

Lemma elem_of_getDocs {V : Type} (P : V → bool) (c : gmap string V) k v :
  (k, v) ∈ getDocs P c ↔ c !! k = Some v ∧ P v = true.
Proof.
  unfold getDocs. rewrite list_elem_of_filter, elem_of_map_to_list. simpl. tauto.
Qed.

Lemma getDocs_nil {V : Type} (P : V → bool) (c : gmap string V) :
  getDocs P c = [] ↔ ∀ k v, c !! k = Some v → P v = false.
Proof.
  split.
  - intros Hnil k v Hk. destruct (P v) eqn:HP; [|done].
    assert ((k, v) ∈ getDocs P c) as Hin by (apply elem_of_getDocs; done).
    rewrite Hnil in Hin. by apply not_elem_of_nil in Hin.
  - intros Hall. destruct (getDocs P c) as [|[k v] l] eqn:E; [done|].
    assert ((k, v) ∈ getDocs P c) as Hin by (rewrite E; left).
    apply elem_of_getDocs in Hin as [Hk HP].
    rewrite (Hall k v Hk) in HP. discriminate.
Qed.

Lemma getDocs_head {V : Type} (P : V → bool) (c : gmap string V) k v l :
  getDocs P c = (k, v) :: l → c !! k = Some v ∧ P v = true.
Proof.
  intros E. apply elem_of_getDocs. rewrite E. left.
Qed.

Lemma activeInSection_true sectionId s :
  activeInSection sectionId s = true ↔
  Session.sectionId s = sectionId ∧ Session.isActive s = true.
Proof.
  unfold activeInSection. rewrite andb_true_iff, bool_decide_eq_true. tauto.
Qed.

(** ** Sessions: exclusivity *)

Lemma create_preserves_exclusive db newId now code teacherId sectionId subjectId mode d :
  exclusive db →
  exclusive (createAttendanceSession db newId now code teacherId sectionId
               subjectId mode d).2.
Proof.
  intros Hinv. unfold createAttendanceSession.
  destruct (getDocs _ _) as [|p l] eqn:E; simpl; [|done].
  pose proof (proj1 (getDocs_nil _ _) E) as Hnone.
  intros G i j s t Hi Hj Hs Ht Has Hat. simpl in Hi, Hj.
  destruct (decide (i = newId)) as [Hi'|Hni], (decide (j = newId)) as [Hj'|Hnj];
    [congruence|subst i|subst j|].
  - rewrite lookup_insert_eq in Hi. rewrite lookup_insert_ne in Hj by done.
    injection Hi as <-. simpl in Hs. subst G.
    assert (activeInSection sectionId t = true) as Hact
      by (apply activeInSection_true; done).
    rewrite (Hnone j t Hj) in Hact. discriminate.
  - rewrite lookup_insert_eq in Hj. rewrite lookup_insert_ne in Hi by done.
    injection Hj as <-. simpl in Ht. subst G.
    assert (activeInSection sectionId s = true) as Hact
      by (apply activeInSection_true; done).
    rewrite (Hnone i s Hi) in Hact. discriminate.
  - rewrite lookup_insert_ne in Hi by done. rewrite lookup_insert_ne in Hj by done.
    by apply (Hinv G i j s t).
Qed.

Lemma end_preserves_exclusive db now sessionId :
  exclusive db → exclusive (endAttendanceSession db now sessionId).2.
Proof.
  intros Hinv. unfold endAttendanceSession.
  destruct (SESSIONS db !! sessionId) as [s0|] eqn:E; simpl; [|done].
  intros G i j s t Hi Hj Hs Ht Has Hat. simpl in Hi, Hj.
  destruct (decide (i = sessionId)) as [->|Hni].
  { rewrite lookup_insert_eq in Hi. injection Hi as <-. discriminate. }
  destruct (decide (j = sessionId)) as [->|Hnj].
  { rewrite lookup_insert_eq in Hj. injection Hj as <-. discriminate. }
  rewrite lookup_insert_ne in Hi by done. rewrite lookup_insert_ne in Hj by done.
  by apply (Hinv G i j s t).
Qed.

Lemma getActive_preserves_exclusive db now sectionId :
  exclusive db → exclusive (getActiveSessionForSection db now sectionId).2.
Proof.
  intros Hinv. unfold getActiveSessionForSection.
  destruct (getDocs _ _) as [|[docId sessionData] l]; simpl; [done|].
  destruct (_ <? _); simpl; [|done].
  by apply end_preserves_exclusive.
Qed.

Lemma mark_SESSIONS db newId now sessionId rollNumber :
  SESSIONS (markSessionAttendance db newId now sessionId rollNumber).2 = SESSIONS db.
Proof.
  unfold markSessionAttendance.
  destruct (SESSIONS db !! sessionId) as [s|]; [|done].
  destruct (negb _); [done|].
  destruct (findStudentByRollNumber _ _); [|done].
  by destruct (getDocs _ _).
Qed.

Lemma run_preserves_exclusive op db : exclusive db → exclusive (run op db).
Proof.
  intros Hinv. destruct op; simpl.
  - by apply create_preserves_exclusive.
  - by apply end_preserves_exclusive.
  - by apply getActive_preserves_exclusive.
  - unfold exclusive. by rewrite mark_SESSIONS.
Qed.

Lemma reachable_exclusive db : reachable db → exclusive db.
Proof.
  induction 1 as [db Hempty|op db _ IH].
  - intros G i j s t Hi. rewrite Hempty, lookup_empty in Hi. discriminate.
  - by apply run_preserves_exclusive.
Qed.

(** C1 (amended).  When the operations are served one at a time, each of
    createSession, endSession, getActiveSession and markAttendance keeps
    "at most one session with isActive = true per section", and the
    property holds in every state so reached from a database without
    sessions. *)
Theorem sessions_exclusive_when_serialised :
  (∀ op db, exclusive db → exclusive (run op db)) ∧
  (∀ db, reachable db → ∀ sectionId, at_most_one_active (SESSIONS db) sectionId).
Proof.
  split.
  - apply run_preserves_exclusive.
  - intros db Hr. by apply reachable_exclusive.
Qed.

Lemma sessions_exclusive_when_serialised_witness :
  reachable Examples.dbSession ∧
  at_most_one_active (SESSIONS Examples.dbSession) "CSE-A".
Proof.
  assert (reachable Examples.dbSession) as Hr.
  { apply reachable_step. by apply reachable_init. }
  split; [exact Hr|].
  exact (proj2 sessions_exclusive_when_serialised Examples.dbSession Hr "CSE-A").
Defined.

(** The two round trips of a call, served back to back, are the call. *)
Lemma create_step_twice db a :
  let (c1, db1) := create_step db (BeforeQuery a) in
  let (c2, db2) := create_step db1 c1 in
  (c2, db2) =
  (Returned (createAttendanceSession db (ca_newId a) (ca_now a) (ca_code a)
               (ca_teacherId a) (ca_sectionId a) (ca_subjectId a) (ca_mode a)
               (ca_durationMinutes a)).1,
   (createAttendanceSession db (ca_newId a) (ca_now a) (ca_code a)
      (ca_teacherId a) (ca_sectionId a) (ca_subjectId a) (ca_mode a)
      (ca_durationMinutes a)).2).
Proof.
  unfold create_step, createAttendanceSession.
  by destruct (getDocs _ _).
Qed.

(** C1, as stated, fails: two createSession calls for CSE-A whose checks
    are both served before either write both succeed, and the section
    then has two sessions with isActive = true. *)
Lemma concurrent_create_two_active :
  ∃ db sA sB,
    Examples.interleaved = (db, Returned (Ok sA), Returned (Ok sB)) ∧
    ¬ at_most_one_active (SESSIONS db) "CSE-A".
Proof.
  eexists _, _, _. split; [vm_compute; reflexivity|].
  intros H.
  specialize (H "sessA" "sessB" _ _ eq_refl eq_refl eq_refl eq_refl eq_refl eq_refl).
  discriminate.
Qed.

(** ** Sessions: creation and lazy expiry *)

(** C2.  createSession either finds a session of the section with
    isActive = true and fails with the conflict error, leaving the
    database as it was, or finds none and succeeds: the session it returns
    is stored under the new id with isActive = true, startTime = now and
    expiresAt = now + durationMinutes * 60000. *)
Theorem createSession_conflict_or_active
    db newId now code teacherId sectionId subjectId mode durationMinutes :
  let r := createAttendanceSession db newId now code teacherId sectionId
             subjectId mode durationMinutes in
  (hasActiveSession db sectionId ∧ r = (Err SessionAlreadyActive, db))
  ∨ (¬ hasActiveSession db sectionId ∧
     ∃ s, r = (Ok s, set_SESSIONS db (<[newId := s]> (SESSIONS db))) ∧
          SESSIONS r.2 !! newId = Some s ∧
          Session.isActive s = true ∧
          Session.sectionId s = sectionId ∧
          Session.startTime s = now ∧
          Session.expiresAt s = now + durationMinutes * 60 * 1000).
Proof.
  intros r. subst r. unfold createAttendanceSession.
  destruct (getDocs _ _) as [|[k v] l] eqn:E.
  - right. split.
    + intros (i & s & Hi & Hs & Ha).
      pose proof (proj1 (getDocs_nil _ _) E i s Hi) as Hf.
      assert (activeInSection sectionId s = true) as Ht
        by (apply activeInSection_true; done).
      congruence.
    + eexists. split; [reflexivity|]. simpl.
      rewrite lookup_insert_eq. done.
  - left. split; [|done].
    apply getDocs_head in E as [Hk Hv].
    apply activeInSection_true in Hv as [Hs Ha]. by exists k, v.
Qed.

Lemma getDocs_unique_active db sectionId docId s :
  at_most_one_active (SESSIONS db) sectionId →
  SESSIONS db !! docId = Some s →
  Session.sectionId s = sectionId → Session.isActive s = true →
  ∃ l, getDocs (activeInSection sectionId) (SESSIONS db) = (docId, s) :: l.
Proof.
  intros Hone Hd Hs Ha.
  destruct (getDocs _ _) as [|[k v] l] eqn:E.
  - pose proof (proj1 (getDocs_nil _ _) E docId s Hd) as Hf.
    assert (activeInSection sectionId s = true) as Ht
      by (apply activeInSection_true; done).
    congruence.
  - pose proof (getDocs_head _ _ _ _ _ E) as [Hk Hv].
    apply activeInSection_true in Hv as [Hvs Hva].
    assert (k = docId) as -> by (by apply (Hone k docId v s)).
    exists l. congruence.
Qed.

(** C6 (amended).  In a section with at most one active session, if a
    stored session has isActive = true and expiresAt < now, then
    getActiveSession returns null and the stored session becomes
    isActive = false (with endTime = now); nothing else changes. *)
Theorem getActiveSession_closes_overdue db now sectionId docId s :
  at_most_one_active (SESSIONS db) sectionId →
  SESSIONS db !! docId = Some s →
  Session.sectionId s = sectionId →
  Session.isActive s = true →
  Session.expiresAt s < now →
  let out := getActiveSessionForSection db now sectionId in
  out.1 = None ∧
  SESSIONS out.2 !! docId = Some (Session.ended s now) ∧
  Session.isActive (Session.ended s now) = false ∧
  out.2 = set_SESSIONS db (<[docId := Session.ended s now]> (SESSIONS db)).
Proof.
  intros Hone Hd Hs Ha Hexp out. subst out.
  destruct (getDocs_unique_active db sectionId docId s Hone Hd Hs Ha) as [l E].
  unfold getActiveSessionForSection. rewrite E.
  assert ((Session.expiresAt s <? now) = true) as -> by (apply Z.ltb_lt; lia).
  unfold endAttendanceSession. rewrite Hd. simpl.
  rewrite lookup_insert_eq. done.
Qed.

Lemma getActiveSession_closes_overdue_witness :
  let out := getActiveSessionForSection Examples.dbSession 601001 "CSE-A" in
  out.1 = None ∧
  SESSIONS out.2 !! "sessA" = Some (Session.ended Examples.sessionA 601001).
Proof.
  assert (at_most_one_active (SESSIONS Examples.dbSession) "CSE-A") as Hone.
  { apply reachable_exclusive, reachable_step. by apply reachable_init. }
  pose proof (getActiveSession_closes_overdue Examples.dbSession 601001 "CSE-A"
                "sessA" Examples.sessionA Hone eq_refl eq_refl eq_refl eq_refl) as H.
  simpl in H. split; apply H.
Defined.

(** C6, as stated, fails: only the first document of the query is looked
    at.  After the two interleaved creations of CSE-A both sessions are
    active; polled when both are overdue, getActiveSession returns null
    and closes one of them, and the other is still stored with
    isActive = true. *)
Lemma getActiveSession_leaves_overdue_active :
  ∃ db sA sB,
    Examples.interleaved = (db, Returned (Ok sA), Returned (Ok sB)) ∧
    let out := getActiveSessionForSection db 700000 "CSE-A" in
    out.1 = None ∧
    ∃ docId s,
      SESSIONS db !! docId = Some s ∧
      Session.sectionId s = "CSE-A" ∧
      Session.isActive s = true ∧
      Session.expiresAt s < 700000 ∧
      SESSIONS out.2 !! docId = Some s.
Proof.
  eexists _, _, _. split; [vm_compute; reflexivity|].
  split; [vm_compute; reflexivity|].
  exists "sessB", (newSession "sessB" 1001 "7305" "t2" "CSE-A" "physics" demo 10).
  repeat split; vm_compute; reflexivity.
Qed.

(** ** Attendance ledger *)

(** C4 (amended).  For a stored session, markAttendance fails with the
    inactive-session error exactly when the stored isActive flag is false,
    and then it writes nothing; expiresAt is not consulted. *)
Theorem mark_inactive_iff_flag db newId now sessionId rollNumber s :
  SESSIONS db !! sessionId = Some s →
  ((markSessionAttendance db newId now sessionId rollNumber).1 = Err SessionInactive
     ↔ Session.isActive s = false) ∧
  (Session.isActive s = false →
     markSessionAttendance db newId now sessionId rollNumber = (Err SessionInactive, db)).
Proof.
  intros Hs. unfold markSessionAttendance. rewrite Hs.
  destruct (Session.isActive s); simpl.
  - split; [|done]. split; [|done].
    destruct (findStudentByRollNumber _ _); [|done].
    by destruct (getDocs _ _).
  - done.
Qed.

Lemma mark_inactive_iff_flag_witness :
  markSessionAttendance (run (EndSession 2000 "sessA") Examples.dbSession)
    "att1" 3000 "sessA" "R1"
  = (Err SessionInactive, run (EndSession 2000 "sessA") Examples.dbSession).
Proof.
  apply (mark_inactive_iff_flag (run (EndSession 2000 "sessA") Examples.dbSession)
           "att1" 3000 "sessA" "R1" (Session.ended Examples.sessionA 2000)).
  - reflexivity.
  - reflexivity.
Defined.

(** C4, as stated, fails: the session created at 1000 for ten minutes
    expires at 601000; nobody ended it or polled it; a mark at 601001
    succeeds and stores a record. *)
Lemma mark_accepts_overdue_session :
  SESSIONS Examples.dbSession !! "sessA" = Some Examples.sessionA ∧
  Session.expiresAt Examples.sessionA < 601001 ∧
  (markSessionAttendance Examples.dbSession "att1" 601001 "sessA" "R1").1 = Ok true ∧
  (ATTENDANCE_LOGS (markSessionAttendance Examples.dbSession "att1" 601001 "sessA" "R1").2)
    !! "att1"
  = Some (AttendanceRecord.mk "att1" "stu1" "math" "t1" "CSE-A" 601001 0 None true 601001).
Proof.
  repeat split; vm_compute; reflexivity.
Qed.

Lemma NoDup_getDocs {V : Type} (P : V → bool) (c : gmap string V) :
  NoDup (getDocs P c).
Proof. unfold getDocs. apply NoDup_filter, NoDup_map_to_list. Qed.

Lemma getDocs_insert_only {V : Type} (P : V → bool) (c : gmap string V) k v :
  getDocs P c = [] → P v = true → getDocs P (<[k := v]> c) = [(k, v)].
Proof.
  intros Hnil HP.
  pose proof (proj1 (getDocs_nil _ _) Hnil) as Hnone.
  assert (∀ p, p ∈ getDocs P (<[k := v]> c) → p = (k, v)) as Hall.
  { intros [k' v'] [Hk' HP']%elem_of_getDocs.
    destruct (decide (k' = k)) as [->|Hne].
    - rewrite lookup_insert_eq in Hk'. congruence.
    - rewrite lookup_insert_ne in Hk' by done.
      rewrite (Hnone k' v' Hk') in HP'. discriminate. }
  assert ((k, v) ∈ getDocs P (<[k := v]> c)) as Hin.
  { apply elem_of_getDocs. by rewrite lookup_insert_eq. }
  pose proof (NoDup_getDocs P (<[k := v]> c)) as Hnd.
  destruct (getDocs P (<[k := v]> c)) as [|p [|q l]].
  - by apply not_elem_of_nil in Hin.
  - f_equal. apply Hall. left.
  - exfalso. apply NoDup_cons in Hnd as [Hnotin _].
    apply Hnotin. rewrite (Hall p), (Hall q); [left| right; left | left].
Qed.

(** A first mark made strictly after the session's start time stores one
    record, which every later mark finds: later calls return [true] and
    leave the database as the first call left it. *)
Lemma mark_idempotent_after_start db id1 id2 now1 now2 sessionId rollNumber session student :
  SESSIONS db !! sessionId = Some session →
  Session.isActive session = true →
  findStudentByRollNumber db rollNumber = Some student →
  recordsFor db student session = [] →
  Session.startTime session < now1 →
  let first := markSessionAttendance db id1 now1 sessionId rollNumber in
  let second := markSessionAttendance first.2 id2 now2 sessionId rollNumber in
  first.1 = Ok true ∧
  length (recordsFor first.2 student session) = 1%nat ∧
  second = (Ok true, first.2).
Proof.
  intros Hs Ha Hst Hnone Hlt first second. subst second first.
  unfold recordsFor in *.
  set (record := AttendanceRecord.mk id1 (Student.id student)
                   (Session.subjectId session) (Session.teacherId session)
                   (Session.sectionId session) now1 0 None true now1).
  set (db1 := set_ATTENDANCE_LOGS db (<[id1 := record]> (ATTENDANCE_LOGS db))).
  assert (markSessionAttendance db id1 now1 sessionId rollNumber = (Ok true, db1))
    as Hfirst.
  { unfold markSessionAttendance. by rewrite Hs, Ha, Hst, Hnone. }
  assert (alreadyMarked student session record = true) as HP.
  { unfold alreadyMarked, record. simpl.
    rewrite !bool_decide_eq_true_2 by done. simpl. apply Z.ltb_lt. lia. }
  pose proof (getDocs_insert_only _ _ id1 record Hnone HP) as Hone.
  rewrite Hfirst. simpl.
  split; [done|]. split; [by rewrite Hone|].
  unfold markSessionAttendance. simpl. rewrite Hs, Ha. simpl.
  assert (findStudentByRollNumber db1 rollNumber = Some student) as ->
    by exact Hst.
  by rewrite Hone.
Qed.

(** C3, at the input where the code departs from it: the session starts
    at 1000 and the marking client's clock reads 1000 on both calls.  The
    record of the first call has timestamp 1000, which the duplicate check
    (timestamp > startTime) does not match, so the second call stores a
    second record for the same student and session. *)
Theorem mark_twice_at_start_time_duplicates :
  (markSessionAttendance Examples.dbSession "att1" 1000 "sessA" "R1").1 = Ok true ∧
  (markSessionAttendance Examples.markedOnce "att2" 1000 "sessA" "R1").1 = Ok true ∧
  ATTENDANCE_LOGS Examples.markedTwice !! "att1"
    = Some (AttendanceRecord.mk "att1" "stu1" "math" "t1" "CSE-A" 1000 0 None true 1000) ∧
  ATTENDANCE_LOGS Examples.markedTwice !! "att2"
    = Some (AttendanceRecord.mk "att2" "stu1" "math" "t1" "CSE-A" 1000 0 None true 1000) ∧
  size (ATTENDANCE_LOGS Examples.markedTwice) = 2%nat.
Proof.
  repeat split; vm_compute; reflexivity.
Qed.

(** C9.  When the attendance write is committed, a rejected audit write
    changes neither the value returned nor the attendance collection: the
    call returns the record it stored, exactly as when the audit write is
    committed too; only the audit collection differs. *)
Theorem audit_failure_swallowed db attendanceId auditId now record :
  let ok := addAttendanceToFirebase db attendanceId auditId now Committed Committed record in
  let failed := addAttendanceToFirebase db attendanceId auditId now Committed Rejected record in
  failed.1 = ok.1 ∧
  (∃ a, failed.1 = Ok a ∧ ATTENDANCE_LOGS failed.2 !! attendanceId = Some a) ∧
  ATTENDANCE_LOGS failed.2 = ATTENDANCE_LOGS ok.2 ∧
  SESSIONS failed.2 = SESSIONS ok.2 ∧
  STUDENTS failed.2 = STUDENTS ok.2 ∧
  AUDITS failed.2 = AUDITS db.
Proof.
  simpl. repeat split.
  eexists. split; [reflexivity|]. by rewrite lookup_insert_eq.
Qed.

(** ** Descriptor store *)

(** C7 (amended).  Registration through saveFaceDescriptorsToFirebase with
    no captured vector for the student (none under the roll number, none
    under the key given) fails with the "no face descriptors" error and
    leaves the database unchanged.  The check is made there;
    saveFaceDescriptors itself does not validate its list. *)
Theorem register_zero_vectors_rejected db faceDescriptors now studentIdOrRoll student :
  resolveStudent db studentIdOrRoll = Some student →
  Map_get faceDescriptors (Student.rollNumber student) = None
    ∨ Map_get faceDescriptors (Student.rollNumber student) = Some [] →
  Map_get faceDescriptors studentIdOrRoll = None
    ∨ Map_get faceDescriptors studentIdOrRoll = Some [] →
  saveFaceDescriptorsToFirebase db faceDescriptors now studentIdOrRoll
  = (Err NoFaceDescriptors, db).
Proof.
  intros Hst H1 H2. unfold saveFaceDescriptorsToFirebase. rewrite Hst.
  destruct H1 as [-> | ->], H2 as [-> | ->]; reflexivity.
Qed.

Lemma register_zero_vectors_rejected_witness :
  saveFaceDescriptorsToFirebase Examples.dbRegistered [("R2", [])] 900 "R2"
  = (Err NoFaceDescriptors, Examples.dbRegistered).
Proof.
  apply (register_zero_vectors_rejected Examples.dbRegistered [("R2", [])] 900 "R2"
           (Student.with_id Examples.student2 "stu2")).
  - reflexivity.
  - right. reflexivity.
  - right. reflexivity.
Defined.

(** C7, as stated, fails on saveFaceDescriptors: called with the empty
    list for a registered student it succeeds, and the stored descriptor
    set is replaced by the empty one. *)
Lemma saveFaceDescriptors_accepts_empty_list :
  (saveFaceDescriptors Examples.dbRegistered 900 "stu2" []).1 = Ok tt ∧
  STUDENTS Examples.dbRegistered !! "stu2" = Some Examples.student2 ∧
  STUDENTS (saveFaceDescriptors Examples.dbRegistered 900 "stu2" []).2 !! "stu2"
  = Some (Student.mk "stu2" "Binod" "R2" "CSE-A" true (Some ∅) (Some 0%nat) 900) ∧
  (saveFaceDescriptors Examples.dbRegistered 900 "stu2" []).2 ≠ Examples.dbRegistered.
Proof.
  repeat split; try (vm_compute; reflexivity).
  intros H.
  assert (STUDENTS (saveFaceDescriptors Examples.dbRegistered 900 "stu2" []).2 !! "stu2"
          = STUDENTS Examples.dbRegistered !! "stu2") as E by (by rewrite H).
  vm_compute in E. discriminate.
Qed.

(** ** Matcher *)

Lemma Qgtb_true a b : Qgtb a b = true ↔ (b < a)%Q.
Proof.
  unfold Qgtb. rewrite negb_true_iff. split.
  - intros H. apply Qnot_le_lt. intros Hle.
    apply Qle_bool_iff in Hle. congruence.
  - intros H. destruct (Qle_bool a b) eqn:E; [|done].
    apply Qle_bool_iff in E. exfalso. by apply (Qlt_not_le b a).
Qed.

Lemma Qgtb_false a b : Qgtb a b = false ↔ (a <= b)%Q.
Proof.
  unfold Qgtb. rewrite negb_false_iff. apply Qle_bool_iff.
Qed.

Lemma maxConfidence_le (t : Q) (cs : list Q) :
  (0 <= t)%Q → (maxConfidence cs <= t)%Q ↔ Forall (λ c, (c <= t)%Q) cs.
Proof.
  intros Ht. induction cs as [|c cs IH]; simpl.
  - split; [constructor | done].
  - rewrite Q.max_lub_iff, IH, Forall_cons. tauto.
Qed.

Section MatcherProperties.

Variable euclideanDistance : list Q → list Q → option Q.

Lemma scanDescriptors_spec faceDescriptor studentId descriptors cs bestMatch :
  Forall2 (confidenceIs euclideanDistance faceDescriptor) descriptors cs →
  ∃ bestMatch',
    scanDescriptors euclideanDistance faceDescriptor studentId descriptors bestMatch
      = Some bestMatch' ∧
    (bestMatch' = None ↔ bestMatch = None ∧ allAtOrBelow cs) ∧
    (aboveThreshold bestMatch → aboveThreshold bestMatch').
Proof.
  intros HF. revert bestMatch.
  induction HF as [|d c ds cs Hd HF IH]; intros bestMatch; simpl.
  - exists bestMatch. split; [done|]. split; [|done].
    split; [intros ->; split; [done|constructor] | tauto].
  - unfold confidenceIs in Hd.
    destruct (euclideanDistance faceDescriptor d) as [distance|]; [|done].
    simpl in Hd. injection Hd as Hc. rewrite Hc.
    destruct (Qgtb c double_0_4) eqn:Hgt; simpl.
    + apply Qgtb_true in Hgt.
      assert (¬ allAtOrBelow (c :: cs)) as Hnot.
      { intros Hall. apply Forall_cons in Hall as [Hle _].
        by apply (Qlt_not_le _ _ Hgt). }
      set (new := Some (BestMatch.mk studentId c)).
      assert (aboveThreshold new) as Hnew.
      { intros b [= <-]. done. }
      destruct (match bestMatch with
                | Some b => Qgtb c (BestMatch.confidence b)
                | None => true
                end) eqn:Hbetter.
      * destruct (Qgtb c double_0_8).
        { exists new. split; [done|]. split; [|done]. split; [done|tauto]. }
        destruct (IH new) as (b' & -> & Hiff & Hgood).
        exists b'. split; [done|]. split; [|auto].
        rewrite Hiff. split; [intros [? _]; done | tauto].
      * destruct bestMatch as [b|]; [|done].
        destruct (IH (Some b)) as (b' & -> & Hiff & Hgood).
        exists b'. split; [done|]. split; [|done].
        rewrite Hiff. split; intros [? _]; done.
    + apply Qgtb_false in Hgt.
      destruct (IH bestMatch) as (b' & -> & Hiff & Hgood).
      exists b'. split; [done|]. split; [|done].
      rewrite Hiff. unfold allAtOrBelow. rewrite Forall_cons. tauto.
Qed.

Lemma scanStudents_spec faceDescriptor (entries : FaceDescriptors) cs bestMatch :
  Forall2 (confidenceIs euclideanDistance faceDescriptor) (concat (map snd entries)) cs →
  ∃ bestMatch',
    scanStudents euclideanDistance faceDescriptor entries bestMatch = Some bestMatch' ∧
    (bestMatch' = None ↔ bestMatch = None ∧ allAtOrBelow cs) ∧
    (aboveThreshold bestMatch → aboveThreshold bestMatch').
Proof.
  revert cs bestMatch.
  induction entries as [|[studentId descriptors] rest IH]; intros cs bestMatch HF; simpl in *.
  - apply Forall2_nil_inv_l in HF as ->.
    exists bestMatch. split; [done|]. split; [|done].
    split; [intros ->; split; [done|constructor] | tauto].
  - apply Forall2_app_inv_l in HF as (cs1 & cs2 & H1 & H2 & ->).
    destruct (scanDescriptors_spec faceDescriptor studentId descriptors cs1 bestMatch H1)
      as (b1 & -> & Hiff1 & Hgood1).
    unfold allAtOrBelow in *.
    pose proof (Forall_app (λ c, (c <= double_0_4)%Q) cs1 cs2) as Happ.
    destruct b1 as [b|].
    + destruct (Qgtb (BestMatch.confidence b) double_0_8).
      * exists (Some b). split; [done|]. split; [|done].
        split; [done|]. rewrite Happ. intros (Hn & Hall1 & _).
        by apply Hiff1.
      * destruct (IH cs2 (Some b) H2) as (b' & -> & Hiff & Hgood).
        exists b'. split; [done|]. split; [|auto].
        rewrite Hiff, Happ. split; [intros [? _]; done|].
        intros (Hn & Hall1 & _).
        assert (Some b = None) by (by apply Hiff1). done.
    + destruct (IH cs2 None H2) as (b' & -> & Hiff & Hgood).
      exists b'. split; [done|]. split.
      * rewrite Hiff, Happ. destruct Hiff1 as [Hiff1 _].
        destruct (Hiff1 eq_refl) as [-> Hall1]. tauto.
      * intros _. apply Hgood. intros b. done.
Qed.

(** What one face gets, when every distance the scan may need exists. *)
Lemma recognizeOne_spec (faceDescriptors : FaceDescriptors) detection cs :
  confidencesOf euclideanDistance (Detection.descriptor detection) faceDescriptors
    = Some cs →
  ∃ r, recognizeOne euclideanDistance faceDescriptors detection = Some r ∧
       Recognition.box r = copyBox (Detection.box detection) ∧
       (Recognition.isRecognized r = false ↔ (maxConfidence cs <= double_0_4)%Q) ∧
       (Recognition.isRecognized r = false → r = unknownFace detection) ∧
       (Recognition.isRecognized r = true → (double_0_4 < Recognition.confidence r)%Q).
Proof.
  intros Hcs. unfold confidencesOf in Hcs. apply mapM_Some in Hcs.
  destruct (scanStudents_spec (Detection.descriptor detection) faceDescriptors cs None Hcs)
    as (b' & Hscan & Hiff & Hgood).
  unfold recognizeOne. rewrite Hscan.
  assert ((0 <= double_0_4)%Q) as Hpos by (apply Qle_bool_iff; reflexivity).
  pose proof (maxConfidence_le double_0_4 cs Hpos) as Hmax.
  destruct b' as [b|].
  - eexists. split; [reflexivity|]. simpl. split; [done|].
    split; [|split; [done|]].
    + rewrite Hmax. split; [done|]. intros Hall.
      assert (Some b = None) by (by apply Hiff). done.
    + intros _. apply Hgood; [|done]. intros b0. done.
  - eexists. split; [reflexivity|]. simpl. split; [done|].
    split; [|done]. rewrite Hmax. split; [|done]. intros _. by apply Hiff.
Qed.

End MatcherProperties.






(** C5 (amended).  With a non-empty table and every distance defined, the
    face gets exactly one entry, which is unmatched if and only if the
    largest confidence max(0, 1 - distance) over all stored descriptors,
    the subtraction rounded to a double, is at or below the double 0.4 (a
    confidence equal to it is unmatched); an unmatched entry carries the
    id "unknown" and confidence 0, a matched one a confidence above the
    double 0.4. *)
Theorem identify_unmatched_iff_not_above
    euclideanDistance detection (faceDescriptors : FaceDescriptors) descriptorsMap cs :
  faceDescriptors ≠ [] →
  confidencesOf euclideanDistance (Detection.descriptor detection) faceDescriptors
    = Some cs →
  ∃ r, recognizeFaces euclideanDistance [detection] faceDescriptors descriptorsMap
         = ([r], faceDescriptors) ∧
       (Recognition.isRecognized r = false ↔ (maxConfidence cs <= double_0_4)%Q) ∧
       (Recognition.isRecognized r = false →
          Recognition.studentId r = "unknown" ∧ Recognition.confidence r = 0%Q) ∧
       (Recognition.isRecognized r = true → (double_0_4 < Recognition.confidence r)%Q).
Proof.
  intros Hne Hcs.
  destruct (recognizeOne_spec euclideanDistance faceDescriptors detection cs Hcs)
    as (r & Hr & _ & Hiff & Hunk & Hrec).
  exists r. split.
  - unfold recognizeFaces, recognizeFaces_try.
    destruct faceDescriptors as [|p t]; [done|].
    simpl. by rewrite Hr.
  - split; [done|]. split; [|done].
    intros Hf. by rewrite (Hunk Hf).
Qed.

Lemma identify_unmatched_iff_not_above_witness :
  ∃ r, recognizeFaces euclideanDistance64 [Examples.faceFar] Examples.tableR1 []
         = ([r], Examples.tableR1) ∧
       (Recognition.isRecognized r = false ↔ (maxConfidence [1 # 4] <= double_0_4)%Q).
Proof.
  destruct (identify_unmatched_iff_not_above euclideanDistance64 Examples.faceFar
              Examples.tableR1 [] [1 # 4]%Q) as (r & H1 & H2 & _).
  - discriminate.
  - vm_compute. reflexivity.
  - exists r. split; assumption.
Defined.

(** C5, as stated, fails twice.  The face [faceAtThreshold] is at distance
    0.6 (as a double) from the only stored descriptor, so its largest
    confidence is 1 - 0.6, which is the double 0.4: not below the
    threshold, and yet the face is unmatched.  The face [faceFar] has the
    largest confidence 0.25 and is returned with confidence 0, not
    0.25. *)
Lemma identify_unmatched_at_threshold_and_zero_confidence :
  (euclideanDistance64 (Detection.descriptor Examples.faceAtThreshold) (repeat 0%Q 128)
     = Some (round64 (6 # 10)) ∧
   confidencesOf euclideanDistance64 (Detection.descriptor Examples.faceAtThreshold)
     Examples.tableR1 = Some [double_0_4] ∧
   ¬ (maxConfidence [double_0_4] < double_0_4)%Q ∧
   map Recognition.isRecognized
     (recognizeFaces euclideanDistance64 [Examples.faceAtThreshold] Examples.tableR1 []).1
   = [false]) ∧
  (confidencesOf euclideanDistance64 (Detection.descriptor Examples.faceFar)
     Examples.tableR1 = Some [(1 # 4)%Q] ∧
   map Recognition.isRecognized
     (recognizeFaces euclideanDistance64 [Examples.faceFar] Examples.tableR1 []).1
   = [false] ∧
   map Recognition.confidence
     (recognizeFaces euclideanDistance64 [Examples.faceFar] Examples.tableR1 []).1
   = [0%Q] ∧
   ¬ (maxConfidence [(1 # 4)%Q] == 0)%Q).
Proof.
  split.
  - split; [vm_compute; reflexivity|]. split; [vm_compute; reflexivity|].
    split; [|vm_compute; reflexivity].
    apply Qle_not_lt. apply Qle_bool_iff. vm_compute. reflexivity.
  - split; [vm_compute; reflexivity|]. split; [vm_compute; reflexivity|].
    split; [vm_compute; reflexivity|].
    intros H. apply Qeq_bool_iff in H. vm_compute in H. discriminate.
Qed.

(** C8 (amended).  With no descriptor in memory and none coming back from
    the reload, the call does not fail: it returns one entry per detected
    face, each "unknown" with confidence 0 and isRecognized = false. *)
Theorem no_candidates_all_unknown euclideanDistance detections descriptorsMap :
  loadFaceDescriptorsFromFirebase descriptorsMap = [] →
  recognizeFaces_try euclideanDistance detections [] descriptorsMap
    = (Some (map unknownFace detections), []) ∧
  recognizeFaces euclideanDistance detections [] descriptorsMap
    = (map unknownFace detections, []).
Proof.
  intros Hload. unfold recognizeFaces, recognizeFaces_try.
  destruct detections as [|d ds]; [done|].
  by rewrite Hload.
Qed.

Lemma no_candidates_all_unknown_witness :
  recognizeFaces euclideanDistance64 [Examples.faceHalf; Examples.faceFar] [] []
  = ([unknownFace Examples.faceHalf; unknownFace Examples.faceFar], []).
Proof.
  apply (no_candidates_all_unknown euclideanDistance64
           [Examples.faceHalf; Examples.faceFar] []).
  reflexivity.
Defined.

(** C8, as stated, fails: with an empty table and nothing to reload, the
    call for one face runs to completion and returns an entry. *)
Lemma no_candidates_returns_result :
  loadFaceDescriptorsFromFirebase [] = [] ∧
  recognizeFaces_try euclideanDistance64 [Examples.faceFar] [] []
  = (Some [Recognition.mk "unknown" 0 Examples.box1 false], []).
Proof.
  split; reflexivity.
Qed.


(** An exception inside the scan empties the result: the stored
    descriptor has 100 components, the probe 128, and the distance
    function throws. *)
Example recognizeFaces_length_mismatch :
  recognizeFaces euclideanDistance64 [Examples.faceHalf; Examples.faceFar]
    [("R1", [repeat 0%Q 100])] []
  = ([], [("R1", [repeat 0%Q 100])]).
Proof. vm_compute. reflexivity. Qed.

(** A face at distance 0.5 from the stored descriptor is matched, with
    confidence 0.5. *)
Example recognizeFaces_match :
  map (λ r, (Recognition.studentId r, Recognition.confidence r,
             Recognition.isRecognized r))
    (recognizeFaces euclideanDistance64 [Examples.faceHalf] Examples.tableR1 []).1
  = [("R1", (1 # 2)%Q, true)].
Proof. vm_compute. reflexivity. Qed.

(** * Further properties *)

(** ** No partial writes *)

(** X1.  A call that fails leaves the database exactly as it found it:
    createAttendanceSession, endAttendanceSession, markSessionAttendance,
    saveFaceDescriptors, saveFaceDescriptorsToFirebase,
    addAttendanceToFirebase (whose failure also means that no audit entry
    was written) and createStudentInFirebase. *)
Theorem failed_calls_write_nothing :
  (∀ db newId now code teacherId sectionId subjectId mode d,
     let r := createAttendanceSession db newId now code teacherId sectionId
                subjectId mode d in
     match r.1 with Err _ => r.2 = db | Ok _ => True end) ∧
  (∀ db now sessionId,
     let r := endAttendanceSession db now sessionId in
     match r.1 with Err _ => r.2 = db | Ok _ => True end) ∧
  (∀ db newId now sessionId rollNumber,
     let r := markSessionAttendance db newId now sessionId rollNumber in
     match r.1 with Err _ => r.2 = db | Ok _ => True end) ∧
  (∀ db now studentId descriptors,
     let r := saveFaceDescriptors db now studentId descriptors in
     match r.1 with Err _ => r.2 = db | Ok _ => True end) ∧
  (∀ db table now studentIdOrRoll,
     let r := saveFaceDescriptorsToFirebase db table now studentIdOrRoll in
     match r.1 with Err _ => r.2 = db | Ok _ => True end) ∧
  (∀ db attendanceId auditId now w1 w2 record,
     let r := addAttendanceToFirebase db attendanceId auditId now w1 w2 record in
     match r.1 with Err _ => r.2 = db | Ok _ => True end) ∧
  (∀ db newId now studentData,
     let r := createStudentInFirebase db newId now studentData in
     match r.1 with Refused _ => r.2 = db | Created _ => True end).
Proof.
  assert (∀ db now studentId descriptors,
     let r := saveFaceDescriptors db now studentId descriptors in
     match r.1 with Err _ => r.2 = db | Ok _ => True end) as Hsave.
  { intros db now studentId descriptors. unfold saveFaceDescriptors.
    by destruct (STUDENTS db !! studentId). }
  cbv zeta in *. repeat split.
  - intros. unfold createAttendanceSession. by destruct (getDocs _ _).
  - intros. unfold endAttendanceSession. by destruct (SESSIONS db !! sessionId).
  - intros. unfold markSessionAttendance.
    destruct (SESSIONS db !! sessionId); [|done].
    destruct (negb _); [done|].
    destruct (findStudentByRollNumber _ _); [|done].
    by destruct (getDocs _ _).
  - exact Hsave.
  - intros. unfold saveFaceDescriptorsToFirebase.
    destruct (resolveStudent _ _) as [student|]; [|done].
    match goal with
    | |- context [match ?x with Some _ => _ | None => (Err NoFaceDescriptors, _) end] =>
        destruct x as [l|]; [|done]
    end.
    destruct (length l =? 0)%nat; [done|]. apply Hsave.
  - intros. unfold addAttendanceToFirebase. by destruct w1.
  - intros. unfold createStudentInFirebase.
    destruct (getDocs _ _); [|done].
    by destruct (StudentInput.copiedDefined studentData).
Qed.

(** ** Session lifecycle *)

(** X2.  Whatever getActiveSessionForSection returns is a stored session
    of the section asked for, with isActive = true, not overdue, carrying
    its document id; and returning it changed nothing. *)
Theorem getActiveSession_sound db now sectionId s :
  (getActiveSessionForSection db now sectionId).1 = Some s →
  (∃ data, SESSIONS db !! Session.id s = Some data ∧
           s = Session.with_id data (Session.id s)) ∧
  Session.sectionId s = sectionId ∧
  Session.isActive s = true ∧
  now <= Session.expiresAt s ∧
  (getActiveSessionForSection db now sectionId).2 = db.
Proof.
  unfold getActiveSessionForSection.
  destruct (getDocs _ _) as [|[docId data] l] eqn:E; [done|].
  apply getDocs_head in E as [Hd Ha].
  apply activeInSection_true in Ha as [Hs Ha].
  destruct (Session.expiresAt data <? now) eqn:Hexp; [done|].
  apply Z.ltb_ge in Hexp. simpl. intros [= <-]. simpl.
  repeat split; try done. by exists data.
Qed.

Lemma getActiveSession_sound_witness :
  Session.isActive Examples.sessionA = true ∧ 2000 <= Session.expiresAt Examples.sessionA.
Proof.
  pose proof (getActiveSession_sound Examples.dbSession 2000 "CSE-A" Examples.sessionA
                eq_refl) as (_ & _ & Ha & He & _).
  split; assumption.
Defined.

Lemma getDocs_active_after_create db newId now code teacherId sectionId subjectId mode d :
  getDocs (activeInSection sectionId) (SESSIONS db) = [] →
  getDocs (activeInSection sectionId)
    (<[newId := newSession newId now code teacherId sectionId subjectId mode d]>
       (SESSIONS db))
  = [(newId, newSession newId now code teacherId sectionId subjectId mode d)].
Proof.
  intros Hnil. apply getDocs_insert_only; [done|].
  apply activeInSection_true. done.
Qed.

(** X3.  A session that createAttendanceSession has just created is what
    getActiveSessionForSection returns for its section, at any time up to
    and including its expiresAt; the lookup changes nothing. *)
Theorem create_then_getActive db newId now code teacherId sectionId subjectId mode d s now' :
  (createAttendanceSession db newId now code teacherId sectionId subjectId mode d).1
    = Ok s →
  now' <= Session.expiresAt s →
  let db' := (createAttendanceSession db newId now code teacherId sectionId
                subjectId mode d).2 in
  getActiveSessionForSection db' now' sectionId = (Some s, db').
Proof.
  unfold createAttendanceSession.
  destruct (getDocs _ _) as [|p l] eqn:E; [|done].
  simpl. intros [= <-] Hexp.
  unfold getActiveSessionForSection. simpl.
  rewrite (getDocs_active_after_create _ _ _ _ _ _ _ _ _ E).
  assert ((Session.expiresAt (newSession newId now code teacherId sectionId
                                subjectId mode d) <? now') = false) as ->
    by (apply Z.ltb_ge; exact Hexp).
  done.
Qed.

Lemma create_then_getActive_witness :
  getActiveSessionForSection Examples.dbSession 601000 "CSE-A"
  = (Some Examples.sessionA, Examples.dbSession).
Proof.
  apply (create_then_getActive Examples.dbStudents "sessA" 1000 "4821" "t1" "CSE-A"
           "math" demo 10 Examples.sessionA 601000).
  - reflexivity.
  - vm_compute. discriminate.
Defined.

Lemma run_keeps_ended op db i s :
  SESSIONS db !! i = Some s → Session.isActive s = false → ¬ creates_under op i →
  ∃ s', SESSIONS (run op db) !! i = Some s' ∧ Session.isActive s' = false.
Proof.
  intros Hi Hs Hop.
  assert (∀ now sessionId,
            ∃ s', SESSIONS (endAttendanceSession db now sessionId).2 !! i = Some s' ∧
                  Session.isActive s' = false) as Hend.
  { intros now sessionId. unfold endAttendanceSession.
    destruct (SESSIONS db !! sessionId) as [s0|] eqn:E; simpl; [|by exists s].
    destruct (decide (sessionId = i)) as [->|Hne].
    - rewrite lookup_insert_eq. by eexists.
    - rewrite lookup_insert_ne by done. by exists s. }
  destruct op; simpl in *.
  - unfold createAttendanceSession.
    destruct (getDocs _ _); simpl; [|by exists s].
    rewrite lookup_insert_ne by done. by exists s.
  - apply Hend.
  - unfold getActiveSessionForSection.
    destruct (getDocs _ _) as [|[docId data] l]; simpl; [by exists s|].
    destruct (_ <? _); simpl; [apply Hend | by exists s].
  - rewrite mark_SESSIONS. by exists s.
Qed.

(** X4.  An ended session is never resurrected: whatever sequence of
    createSession, endSession, getActiveSession and markAttendance calls
    follows, as long as none of them creates a new document under the
    same id, the stored session still has isActive = false. *)
Theorem ended_sessions_stay_ended ops db i s :
  SESSIONS db !! i = Some s →
  Session.isActive s = false →
  Forall (λ op, ¬ creates_under op i) ops →
  ∃ s', SESSIONS (run_all ops db) !! i = Some s' ∧ Session.isActive s' = false.
Proof.
  intros Hi Hs Hops. revert db s Hi Hs.
  induction Hops as [|op ops Hop _ IH]; intros db s Hi Hs; simpl.
  - by exists s.
  - destruct (run_keeps_ended op db i s Hi Hs Hop) as (s1 & Hi1 & Hs1).
    by apply (IH (run op db) s1).
Qed.

Lemma ended_sessions_stay_ended_witness :
  ∃ s', SESSIONS (run_all [GetActiveSession 3000 "CSE-A";
                           CreateSession "sessB" 4000 "1111" "t1" "CSE-A" "math" live 5;
                           MarkAttendance "att1" 4500 "sessA" "R1";
                           EndSession 5000 "sessB"]
                    (run (EndSession 2000 "sessA") Examples.dbSession)) !! "sessA"
        = Some s' ∧ Session.isActive s' = false.
Proof.
  apply (ended_sessions_stay_ended _ _ "sessA" (Session.ended Examples.sessionA 2000)).
  - reflexivity.
  - reflexivity.
  - repeat constructor; simpl; try tauto. discriminate.
Defined.

Lemma no_active_getDocs_nil db sectionId :
  ¬ hasActiveSession db sectionId →
  getDocs (activeInSection sectionId) (SESSIONS db) = [].
Proof.
  intros Hno. apply getDocs_nil. intros k v Hk.
  destruct (activeInSection sectionId v) eqn:E; [|done].
  apply activeInSection_true in E as [Hs Ha].
  exfalso. apply Hno. by exists k, v.
Qed.

(** X5.  Ending the active session of a section frees the section: in a
    database that satisfies the exclusivity invariant, once the session
    with isActive = true has been ended, no active session of its section
    is left and the next createAttendanceSession for the section
    succeeds. *)
Theorem end_frees_section db now i s newId now' code teacherId subjectId mode d :
  exclusive db →
  SESSIONS db !! i = Some s →
  Session.isActive s = true →
  let db1 := (endAttendanceSession db now i).2 in
  ¬ hasActiveSession db1 (Session.sectionId s) ∧
  (createAttendanceSession db1 newId now' code teacherId (Session.sectionId s)
     subjectId mode d).1
  = Ok (newSession newId now' code teacherId (Session.sectionId s) subjectId mode d).
Proof.
  intros Hex Hi Ha db1.
  assert (¬ hasActiveSession db1 (Session.sectionId s)) as Hno.
  { subst db1. unfold endAttendanceSession. rewrite Hi. simpl.
    intros (j & t & Hj & Hts & Hta). simpl in Hj.
    destruct (decide (j = i)) as [->|Hne].
    - rewrite lookup_insert_eq in Hj. injection Hj as <-. discriminate.
    - rewrite lookup_insert_ne in Hj by done.
      apply Hne. by apply (Hex (Session.sectionId s) j i t s). }
  split; [done|].
  unfold createAttendanceSession. by rewrite (no_active_getDocs_nil _ _ Hno).
Qed.

Lemma end_frees_section_witness :
  (createAttendanceSession (endAttendanceSession Examples.dbSession 2000 "sessA").2
     "sessB" 3000 "1111" "t1" "CSE-A" "math" live 5).1
  = Ok (newSession "sessB" 3000 "1111" "t1" "CSE-A" "math" live 5).
Proof.
  assert (exclusive Examples.dbSession) as Hex.
  { apply reachable_exclusive, reachable_step. by apply reachable_init. }
  apply (end_frees_section Examples.dbSession 2000 "sessA" Examples.sessionA
           "sessB" 3000 "1111" "t1" "math" live 5 Hex eq_refl eq_refl).
Defined.

(** X6.  Once a poll has found a session overdue, marks are refused: in a
    section with at most one active session, after
    getActiveSessionForSection has run past the session's expiresAt,
    markSessionAttendance on that session fails with the inactive-session
    error and writes nothing. *)
Theorem poll_then_mark_rejected db now now' sectionId docId s newId rollNumber :
  at_most_one_active (SESSIONS db) sectionId →
  SESSIONS db !! docId = Some s →
  Session.sectionId s = sectionId →
  Session.isActive s = true →
  Session.expiresAt s < now →
  let db1 := (getActiveSessionForSection db now sectionId).2 in
  markSessionAttendance db1 newId now' docId rollNumber = (Err SessionInactive, db1).
Proof.
  intros Hone Hd Hs Ha Hexp db1. subst db1.
  destruct (getDocs_unique_active db sectionId docId s Hone Hd Hs Ha) as [l E].
  unfold getActiveSessionForSection. rewrite E.
  assert ((Session.expiresAt s <? now) = true) as -> by (apply Z.ltb_lt; lia).
  unfold endAttendanceSession. rewrite Hd. simpl.
  unfold markSessionAttendance. simpl. by rewrite lookup_insert_eq.
Qed.

Lemma poll_then_mark_rejected_witness :
  markSessionAttendance (getActiveSessionForSection Examples.dbSession 601001 "CSE-A").2
    "att1" 601002 "sessA" "R1"
  = (Err SessionInactive, (getActiveSessionForSection Examples.dbSession 601001 "CSE-A").2).
Proof.
  assert (at_most_one_active (SESSIONS Examples.dbSession) "CSE-A") as Hone.
  { apply reachable_exclusive, reachable_step. by apply reachable_init. }
  apply (poll_then_mark_rejected Examples.dbSession 601001 601002 "CSE-A" "sessA"
           Examples.sessionA "att1" "R1" Hone eq_refl eq_refl eq_refl eq_refl).
Defined.

(** ** Attendance ledger *)

(** X7.  markSessionAttendance touches nothing but the attendance
    collection, and there nothing but the document with the new id: it
    writes no audit entry, changes no session and no student, and every
    other attendance record stays as it was. *)
Theorem mark_touches_one_record db newId now sessionId rollNumber :
  let db' := (markSessionAttendance db newId now sessionId rollNumber).2 in
  SESSIONS db' = SESSIONS db ∧
  STUDENTS db' = STUDENTS db ∧
  AUDITS db' = AUDITS db ∧
  ∀ k, k ≠ newId → ATTENDANCE_LOGS db' !! k = ATTENDANCE_LOGS db !! k.
Proof.
  unfold markSessionAttendance.
  destruct (SESSIONS db !! sessionId) as [session|]; [|done].
  destruct (negb _); [done|].
  destruct (findStudentByRollNumber _ _) as [student|]; [|done].
  destruct (getDocs _ _); simpl; [|done].
  repeat split. intros k Hk. by rewrite lookup_insert_ne.
Qed.

Lemma elem_of_getAttendanceForStudent db studentId k data :
  ATTENDANCE_LOGS db !! k = Some data →
  AttendanceRecord.studentId data = studentId →
  attendanceWithId data k ∈ getAttendanceForStudent db studentId.
Proof.
  intros Hk Hs. unfold getAttendanceForStudent.
  apply (list_elem_of_fmap_2 (λ kv : string * AttendanceRecord.t,
                                 attendanceWithId kv.2 kv.1) _ (k, data)).
  apply elem_of_getDocs. split; [done|]. by apply bool_decide_eq_true.
Qed.

(** X8.  A first mark shows up in the student's attendance listing: when
    markSessionAttendance stores a record (active session, student found,
    no earlier record), getAttendanceForStudent for the student's document
    id contains a record with the new id, present = true, the time of
    the call and the session's section, subject and teacher. *)
Theorem mark_then_listed db newId now sessionId rollNumber session student :
  SESSIONS db !! sessionId = Some session →
  Session.isActive session = true →
  findStudentByRollNumber db rollNumber = Some student →
  recordsFor db student session = [] →
  let db' := (markSessionAttendance db newId now sessionId rollNumber).2 in
  AttendanceRecord.mk newId (Student.id student) (Session.subjectId session)
    (Session.teacherId session) (Session.sectionId session) now 0 None true now
  ∈ getAttendanceForStudent db' (Student.id student).
Proof.
  intros Hs Ha Hst Hnone db'. subst db'. unfold recordsFor in Hnone.
  unfold markSessionAttendance. rewrite Hs, Ha, Hst, Hnone. simpl.
  set (record := AttendanceRecord.mk _ _ _ _ _ _ _ _ _ _).
  change record with (attendanceWithId record newId).
  apply elem_of_getAttendanceForStudent; [|done].
  simpl. by rewrite lookup_insert_eq.
Qed.

Lemma mark_then_listed_witness :
  AttendanceRecord.mk "att1" "stu1" "math" "t1" "CSE-A" 2000 0 None true 2000
  ∈ getAttendanceForStudent
      (markSessionAttendance Examples.dbSession "att1" 2000 "sessA" "R1").2 "stu1".
Proof.
  apply (mark_then_listed Examples.dbSession "att1" 2000 "sessA" "R1"
           Examples.sessionA (Student.with_id Examples.student1 "stu1")).
  - reflexivity.
  - reflexivity.
  - reflexivity.
  - reflexivity.
Defined.

(** X9.  addAttendanceToFirebase does not deduplicate: two committed
    calls with the same input, under two fresh document ids, store two
    records; the collection grows by two. *)
Theorem addAttendance_twice_two_records db a1 a2 u1 u2 now1 now2 w1 w2 record :
  a1 ≠ a2 →
  ATTENDANCE_LOGS db !! a1 = None →
  ATTENDANCE_LOGS db !! a2 = None →
  let db1 := (addAttendanceToFirebase db a1 u1 now1 Committed w1 record).2 in
  let db2 := (addAttendanceToFirebase db1 a2 u2 now2 Committed w2 record).2 in
  size (ATTENDANCE_LOGS db2) = S (S (size (ATTENDANCE_LOGS db))) ∧
  (∃ r1 r2, ATTENDANCE_LOGS db2 !! a1 = Some r1 ∧ ATTENDANCE_LOGS db2 !! a2 = Some r2 ∧
            AttendanceRecord.studentId r1 = AttendanceInput.studentId record ∧
            AttendanceRecord.studentId r2 = AttendanceInput.studentId record).
Proof.
  intros Hne H1 H2 db1 db2. subst db2 db1. unfold addAttendanceToFirebase.
  destruct w1, w2; simpl; (split;
    [ rewrite map_size_insert_None;
        [by rewrite map_size_insert_None | by rewrite lookup_insert_ne]
    | eexists _, _; rewrite lookup_insert_ne by done;
      rewrite !lookup_insert_eq; done ]).
Qed.

Lemma addAttendance_twice_two_records_witness :
  size (ATTENDANCE_LOGS
          (addAttendanceToFirebase
             (addAttendanceToFirebase Examples.dbSession "a1" "u1" 2000 Committed
                Committed
                (AttendanceInput.mk "stu1" "math" "t1" "CSE-A" None 1 (Some "Limits") true)).2
             "a2" "u2" 2001 Committed Rejected
             (AttendanceInput.mk "stu1" "math" "t1" "CSE-A" None 1 (Some "Limits") true)).2)
  = 2%nat.
Proof.
  apply (addAttendance_twice_two_records Examples.dbSession "a1" "a2" "u1" "u2" 2000
           2001 Committed Rejected
           (AttendanceInput.mk "stu1" "math" "t1" "CSE-A" None 1 (Some "Limits") true)).
  - discriminate.
  - reflexivity.
  - reflexivity.
Defined.

(** ** Students *)

Lemma getDocs_head_unique {V : Type} (P : V → bool) (c : gmap string V) k v :
  c !! k = Some v → P v = true →
  (∀ k' v', c !! k' = Some v' → P v' = true → k' = k) →
  ∃ l, getDocs P c = (k, v) :: l.
Proof.
  intros Hk HP Huniq.
  destruct (getDocs P c) as [|[k' v'] l] eqn:E.
  - pose proof (proj1 (getDocs_nil _ _) E k v Hk). congruence.
  - pose proof (getDocs_head _ _ _ _ _ E) as [Hk' HP'].
    assert (k' = k) as -> by (by apply (Huniq k' v')).
    exists l. congruence.
Qed.

(** X10.  createStudentInFirebase has three outcomes.  If the roll number
    is taken it refuses with that error.  If the roll number is free but
    one of the optional properties the new document copies (uid,
    guardianPhone, alternatePhone, consentFaceData, consentParentNotify,
    department, password) is absent, the write is refused and nothing is
    stored.  Otherwise the new student is stored, and is from then on what
    both findStudentByRollNumber (by roll number) and
    getStudentFromFirebase (by the new id) return; the new student has
    no descriptors and is face-registered only if the caller said so. *)
Theorem createStudent_refuses_or_stores db newId now studentData :
  let r := createStudentInFirebase db newId now studentData in
  (rollTaken db (StudentInput.rollNumber studentData) ∧
   r = (Refused RollNumberExists, db))
  ∨ (¬ rollTaken db (StudentInput.rollNumber studentData) ∧
     StudentInput.copiedDefined studentData = false ∧
     r = (Refused UndefinedField, db))
  ∨ (¬ rollTaken db (StudentInput.rollNumber studentData) ∧
     StudentInput.copiedDefined studentData = true ∧
     ∃ student,
       r.1 = Created student ∧
       findStudentByRollNumber r.2 (StudentInput.rollNumber studentData) = Some student ∧
       getStudentFromFirebase r.2 newId = Some student ∧
       Student.faceDescriptors student = None ∧
       Student.faceRegistered student
         = default false (StudentInput.faceRegistered studentData)).
Proof.
  intros r. subst r. unfold createStudentInFirebase.
  destruct (getDocs _ _) as [|[k v] l] eqn:E.
  - right.
    assert (¬ rollTaken db (StudentInput.rollNumber studentData)) as Hfree.
    { intros (i & s & Hi & Hs).
      pose proof (proj1 (getDocs_nil _ _) E i s Hi) as Hf. simpl in Hf.
      rewrite bool_decide_eq_false in Hf. done. }
    destruct (StudentInput.copiedDefined studentData); [right|left]; [|done].
    split; [done|]. split; [done|].
    eexists. split; [reflexivity|]. simpl.
    unfold findStudentByRollNumber, getStudentFromFirebase. simpl.
    rewrite lookup_insert_eq.
    rewrite (getDocs_insert_only _ _ newId _ E) by (by apply bool_decide_eq_true).
    done.
  - left. split; [|done].
    apply getDocs_head in E as [Hk Hv]. apply bool_decide_eq_true in Hv.
    by exists k, v.
Qed.

(** A student entered without a guardian's phone number is not stored. *)
Example createStudent_without_guardianPhone :
  createStudentInFirebase Examples.dbStudents "stu9" 50
    (StudentInput.mk (Some "uid9") "Chitra" "chitra@college.edu" "R9" "CSE-A" None
       None (Some "555-0101") (Some true) (Some true) (Some "CSE") (Some "pw"))
  = (Refused UndefinedField, Examples.dbStudents).
Proof. reflexivity. Qed.

Lemma saveFaceDescriptors_lookup db now studentId descriptors j t :
  STUDENTS (saveFaceDescriptors db now studentId descriptors).2 !! j = Some t →
  ∃ t0, STUDENTS db !! j = Some t0 ∧
        Student.rollNumber t = Student.rollNumber t0 ∧
        Student.sectionId t = Student.sectionId t0 ∧
        Student.name t = Student.name t0 ∧
        (j ≠ studentId → t = t0).
Proof.
  unfold saveFaceDescriptors.
  destruct (STUDENTS db !! studentId) as [st|] eqn:E; simpl.
  - destruct (decide (j = studentId)) as [->|Hne].
    + rewrite lookup_insert_eq. intros [= <-]. by exists st.
    + rewrite lookup_insert_ne by done. intros Hj. by exists t.
  - intros Hj. by exists t.
Qed.

(** X11.  Roll numbers stay unique: if no two student documents share a
    roll number, the same holds after createStudentInFirebase, after
    deleteStudentFromFirebase and after saveFaceDescriptors. *)
Theorem unique_rolls_preserved db :
  unique_rolls db →
  (∀ newId now studentData,
     unique_rolls (createStudentInFirebase db newId now studentData).2) ∧
  (∀ studentId, unique_rolls (deleteStudentFromFirebase db studentId).2) ∧
  (∀ now studentId descriptors,
     unique_rolls (saveFaceDescriptors db now studentId descriptors).2).
Proof.
  intros Hu. repeat split.
  - intros newId now studentData. unfold createStudentInFirebase.
    destruct (getDocs _ _) as [|p l] eqn:E; simpl; [|done].
    destruct (StudentInput.copiedDefined studentData); simpl; [|done].
    pose proof (proj1 (getDocs_nil _ _) E) as Hnone.
    intros i j s t Hi Hj Hr. simpl in Hi, Hj.
    destruct (decide (i = newId)) as [Hi'|Hni], (decide (j = newId)) as [Hj'|Hnj];
      [congruence|subst i|subst j|].
    + rewrite lookup_insert_eq in Hi. rewrite lookup_insert_ne in Hj by done.
      injection Hi as <-. simpl in Hr.
      pose proof (Hnone j t Hj) as Hf. simpl in Hf.
      rewrite bool_decide_eq_false in Hf. congruence.
    + rewrite lookup_insert_eq in Hj. rewrite lookup_insert_ne in Hi by done.
      injection Hj as <-. simpl in Hr.
      pose proof (Hnone i s Hi) as Hf. simpl in Hf.
      rewrite bool_decide_eq_false in Hf. congruence.
    + rewrite lookup_insert_ne in Hi by done. rewrite lookup_insert_ne in Hj by done.
      by apply (Hu i j s t).
  - intros studentId i j s t Hi Hj Hr. simpl in Hi, Hj.
    apply lookup_delete_Some in Hi as [_ Hi]. apply lookup_delete_Some in Hj as [_ Hj].
    by apply (Hu i j s t).
  - intros now studentId descriptors i j s t Hi Hj Hr.
    apply saveFaceDescriptors_lookup in Hi as (s0 & Hi & Hrs & _).
    apply saveFaceDescriptors_lookup in Hj as (t0 & Hj & Hrt & _).
    apply (Hu i j s0 t0 Hi Hj). congruence.
Qed.

Lemma unique_rolls_singleton i s :
  unique_rolls (mkFirestore ∅ ∅ {[i := s]} ∅).
Proof.
  intros a b x y Ha Hb _. simpl in Ha, Hb.
  apply lookup_singleton_Some in Ha as [<- _].
  by apply lookup_singleton_Some in Hb as [<- _].
Qed.

Lemma unique_rolls_preserved_witness :
  unique_rolls (createStudentInFirebase Examples.dbStudents "stu9" 50
                  Scenarios.chitra).2.
Proof.
  apply (unique_rolls_preserved Examples.dbStudents).
  apply unique_rolls_singleton.
Defined.

(** X12.  With unique roll numbers, findStudentByRollNumber finds every
    stored student by their roll number, and returns the document with
    its document id written over the id field. *)
Theorem find_by_roll_complete db i s :
  unique_rolls db →
  STUDENTS db !! i = Some s →
  findStudentByRollNumber db (Student.rollNumber s) = Some (Student.with_id s i).
Proof.
  intros Hu Hi. unfold findStudentByRollNumber.
  destruct (getDocs_head_unique
              (λ x, bool_decide (Student.rollNumber x = Student.rollNumber s))
              (STUDENTS db) i s Hi) as [l ->]; [by apply bool_decide_eq_true | | done].
  intros k' v' Hk' HP. apply bool_decide_eq_true in HP.
  by apply (Hu k' i v' s).
Qed.

Lemma find_by_roll_complete_witness :
  findStudentByRollNumber Examples.dbStudents "R1"
  = Some (Student.with_id Examples.student1 "stu1").
Proof.
  apply (find_by_roll_complete Examples.dbStudents "stu1" Examples.student1).
  - apply unique_rolls_singleton.
  - reflexivity.
Defined.

(** X13.  saveFaceDescriptors overwrites: saving a second list for the
    same student leaves exactly the state that saving the second list
    alone would have left; nothing of the first list survives. *)
Theorem saveFaceDescriptors_overwrites db now1 now2 studentId l1 l2 st :
  STUDENTS db !! studentId = Some st →
  saveFaceDescriptors (saveFaceDescriptors db now1 studentId l1).2 now2 studentId l2
  = saveFaceDescriptors db now2 studentId l2.
Proof.
  intros Hst. unfold saveFaceDescriptors. rewrite Hst. simpl.
  rewrite lookup_insert_eq. simpl. unfold set_STUDENTS. simpl.
  by rewrite insert_insert_eq.
Qed.

Lemma saveFaceDescriptors_overwrites_witness :
  saveFaceDescriptors
    (saveFaceDescriptors Examples.dbRegistered 600 "stu2"
       [Scenarios.descriptorA; Scenarios.descriptorB]).2
    700 "stu2" [Scenarios.descriptorB]
  = saveFaceDescriptors Examples.dbRegistered 700 "stu2" [Scenarios.descriptorB].
Proof.
  apply (saveFaceDescriptors_overwrites Examples.dbRegistered 600 700 "stu2"
           [Scenarios.descriptorA; Scenarios.descriptorB] [Scenarios.descriptorB]
           Examples.student2).
  reflexivity.
Defined.

(** X14.  A deleted student can no longer be found or marked: with unique
    roll numbers, after deleteStudentFromFirebase the roll-number lookup
    and the id lookup both return nothing, and markSessionAttendance for
    that roll number on an active session fails with the student-not-found
    error. *)
Theorem deleted_student_not_marked db i s newId now sessionId session :
  unique_rolls db →
  STUDENTS db !! i = Some s →
  SESSIONS db !! sessionId = Some session →
  Session.isActive session = true →
  let db' := (deleteStudentFromFirebase db i).2 in
  findStudentByRollNumber db' (Student.rollNumber s) = None ∧
  getStudentFromFirebase db' i = None ∧
  markSessionAttendance db' newId now sessionId (Student.rollNumber s)
  = (Err StudentNotFound, db').
Proof.
  intros Hu Hi Hs Ha db'. subst db'.
  assert (findStudentByRollNumber (deleteStudentFromFirebase db i).2
            (Student.rollNumber s) = None) as Hfind.
  { unfold findStudentByRollNumber. simpl.
    assert (getDocs (λ x, bool_decide (Student.rollNumber x = Student.rollNumber s))
              (delete i (STUDENTS db)) = []) as ->; [|done].
    apply getDocs_nil. intros k v Hk.
    apply lookup_delete_Some in Hk as [Hne Hk].
    apply bool_decide_eq_false. intros Hr.
    apply Hne. symmetry. by apply (Hu k i v s). }
  split; [done|]. split.
  - unfold getStudentFromFirebase. simpl. by rewrite lookup_delete_eq.
  - unfold markSessionAttendance. rewrite Hfind. simpl. by rewrite Hs, Ha.
Qed.

Lemma deleted_student_not_marked_witness :
  markSessionAttendance (deleteStudentFromFirebase Examples.dbSession "stu1").2
    "att1" 2000 "sessA" "R1"
  = (Err StudentNotFound, (deleteStudentFromFirebase Examples.dbSession "stu1").2).
Proof.
  apply (deleted_student_not_marked Examples.dbSession "stu1" Examples.student1
           "att1" 2000 "sessA" Examples.sessionA).
  - apply (unique_rolls_singleton "stu1" Examples.student1).
  - reflexivity.
  - reflexivity.
  - reflexivity.
Defined.

(** ** The table as a map *)

Lemma Map_get_set {V : Type} (m : list (string * V)) k v k' :
  Map_get (Map_set m k v) k' = if bool_decide (k = k') then Some v else Map_get m k'.
Proof.
  induction m as [|[k0 v0] m IH]; simpl.
  - done.
  - destruct (bool_decide (k0 = k)) eqn:E0; simpl.
    + apply bool_decide_eq_true in E0 as ->. by destruct (bool_decide (k = k')).
    + rewrite IH. destruct (bool_decide (k0 = k')) eqn:E1; [|done].
      apply bool_decide_eq_true in E1 as ->. apply bool_decide_eq_false in E0.
      by rewrite bool_decide_eq_false_2.
Qed.

Lemma Map_set_keys {V : Type} (m : list (string * V)) k v k' :
  k' ∈ map fst (Map_set m k v) → k' = k ∨ k' ∈ map fst m.
Proof.
  induction m as [|[k0 v0] m IH]; simpl.
  - intros ->%list_elem_of_singleton. by left.
  - destruct (bool_decide (k0 = k)) eqn:E0; simpl.
    + apply bool_decide_eq_true in E0 as ->. by right.
    + intros [->|Hin]%elem_of_cons; [right; left|].
      destruct (IH Hin) as [->|Hin']; [by left | right; by right].
Qed.

Lemma Map_set_keys_unique {V : Type} (m : list (string * V)) k v :
  NoDup (map fst m) → NoDup (map fst (Map_set m k v)).
Proof.
  induction m as [|[k0 v0] m IH]; simpl.
  - intros _. apply NoDup_singleton.
  - intros [Hnotin Hnd]%NoDup_cons.
    destruct (bool_decide (k0 = k)) eqn:E0; simpl.
    + apply bool_decide_eq_true in E0 as ->. by apply NoDup_cons.
    + apply bool_decide_eq_false in E0.
      apply NoDup_cons. split; [|by apply IH].
      intros [->|Hin]%Map_set_keys; done.
Qed.

Lemma Map_set_Forall {V : Type} (Q : string * V → Prop) (m : list (string * V)) k v :
  Forall Q m → Q (k, v) → Forall Q (Map_set m k v).
Proof.
  intros Hm Hq. induction Hm as [|[k0 v0] m H0 Hm IH]; simpl.
  - by constructor.
  - destruct (bool_decide (k0 = k)); by constructor.
Qed.

Lemma Map_get_elem_of {V : Type} (m : list (string * V)) k v :
  NoDup (map fst m) → (k, v) ∈ m → Map_get m k = Some v.
Proof.
  induction m as [|[k0 v0] m IH]; simpl.
  - by intros _ ?%not_elem_of_nil.
  - intros [Hnotin Hnd]%NoDup_cons [[= <- <-]|Hin]%elem_of_cons.
    + by rewrite bool_decide_eq_true_2.
    + rewrite bool_decide_eq_false_2; [by apply IH|].
      intros ->. apply Hnotin.
      by apply (list_elem_of_fmap_2 fst _ (k, v)).
Qed.

Lemma Map_get_Some_elem_of {V : Type} (m : list (string * V)) k v :
  Map_get m k = Some v → (k, v) ∈ m.
Proof.
  induction m as [|[k0 v0] m IH]; simpl; [done|].
  destruct (bool_decide (k0 = k)) eqn:E0.
  - apply bool_decide_eq_true in E0 as ->. intros [= ->]. left.
  - intros H. right. by apply IH.
Qed.

(** A table built by setting, for each item that has a value, the item's
    key: what it holds under a key all of whose items agree. *)
Lemma fold_Map_set_get {X V : Type} (key : X → string) (val : X → option V)
    (step : list (string * V) → X → list (string * V)) xs acc k0 v0 :
  (∀ acc x, step acc x = match val x with
                         | Some v => Map_set acc (key x) v
                         | None => acc
                         end) →
  (∀ x, x ∈ xs → key x = k0 → val x = Some v0) →
  (∃ x, x ∈ xs ∧ key x = k0) ∨ Map_get acc k0 = Some v0 →
  Map_get (fold_left step xs acc) k0 = Some v0.
Proof.
  intros Hstep. revert acc.
  induction xs as [|x xs IH]; intros acc Hall Hex; simpl.
  - destruct Hex as [(x & Hx & _)|Hacc]; [by apply not_elem_of_nil in Hx | done].
  - apply IH; [intros y Hy; apply Hall; by right|].
    destruct (decide (key x = k0)) as [Hk|Hk].
    + right. rewrite Hstep, (Hall x (list_elem_of_here _ _) Hk), Map_get_set, Hk.
      by rewrite bool_decide_eq_true_2.
    + destruct Hex as [(y & [->|Hy]%elem_of_cons & Hky)|Hacc]; [done| left; by exists y |].
      right. rewrite Hstep. destruct (val x) as [v|]; [|done].
      rewrite Map_get_set. by rewrite bool_decide_eq_false_2.
Qed.

Lemma fold_Map_set_invariant {X V : Type} (Q : string * V → Prop)
    (step : list (string * V) → X → list (string * V)) xs acc :
  (∀ acc x, step acc x = acc ∨ ∃ k v, step acc x = Map_set acc k v ∧ Q (k, v)) →
  NoDup (map fst acc) → Forall Q acc →
  NoDup (map fst (fold_left step xs acc)) ∧ Forall Q (fold_left step xs acc).
Proof.
  intros Hstep. revert acc.
  induction xs as [|x xs IH]; intros acc Hnd HQ; simpl; [done|].
  destruct (Hstep acc x) as [->|(k & v & -> & Hq)]; [by apply IH|].
  apply IH; [by apply Map_set_keys_unique | by apply Map_set_Forall].
Qed.

(** ** Stored descriptors: save and load *)

Lemma descriptor_key_inj (a b : nat) :
  "desc_" +:+ pretty a = "desc_" +:+ pretty b → a = b.
Proof.
  intros H. apply (inj (String.app "desc_")) in H. by apply (inj pretty) in H.
Qed.

Lemma descriptorsObjectFrom_values descriptors index acc :
  (∀ j, (index <= j)%nat → acc !! ("desc_" +:+ pretty j) = None) →
  map snd (map_to_list (descriptorsObjectFrom index descriptors acc))
  ≡ₚ descriptors ++ map snd (map_to_list acc).
Proof.
  revert index acc.
  induction descriptors as [|d rest IH]; intros index acc Hfresh; simpl; [done|].
  rewrite IH.
  - rewrite map_to_list_insert by (apply Hfresh; lia). simpl.
    by rewrite Permutation_middle.
  - intros j Hj. rewrite lookup_insert_ne; [apply Hfresh; lia|].
    intros Heq%descriptor_key_inj. lia.
Qed.

Lemma values_by_sorted_keys (o : gmap string (list Q)) :
  omap (λ key, o !! key) (merge_sort string_le (map fst (map_to_list o)))
  ≡ₚ map snd (map_to_list o).
Proof.
  rewrite merge_sort_Permutation.
  assert (∀ l : list (string * list Q),
            (∀ kv, kv ∈ l → o !! kv.1 = Some kv.2) →
            omap (λ key, o !! key) (map fst l) = map snd l) as Hl.
  { induction l as [|[k v] l IH]; intros Hall; simpl; [done|].
    pose proof (Hall (k, v) (list_elem_of_here _ _)) as Hhd. simpl in Hhd.
    rewrite Hhd. simpl. f_equal.
    apply IH. intros kv Hkv. apply Hall. by right. }
  rewrite Hl; [done|].
  intros [k v] Hkv. by apply elem_of_map_to_list in Hkv.
Qed.

Lemma storedDescriptors_saved descriptors :
  storedDescriptors (descriptorsObjectFrom 0 descriptors ∅)
  ≡ₚ filter (λ d, acceptedLength d = true) descriptors.
Proof.
  unfold storedDescriptors.
  rewrite values_by_sorted_keys.
  rewrite descriptorsObjectFrom_values by (intros; apply lookup_empty).
  rewrite map_to_list_empty. simpl. by rewrite app_nil_r.
Qed.

(** X15.  Saving and reading back a descriptor list: the descriptors read
    from the object that saveFaceDescriptors builds (desc_0, desc_1, ...)
    are, up to order, the saved descriptors of an accepted length, each
    as often as it was saved; the order is that of the keys sorted as
    strings. *)
Theorem storedDescriptors_roundtrip descriptors :
  storedDescriptors (descriptorsObjectFrom 0 descriptors ∅)
  ≡ₚ filter (λ d, acceptedLength d = true) descriptors.
Proof.
  unfold storedDescriptors.
  rewrite values_by_sorted_keys.
  rewrite descriptorsObjectFrom_values by (intros; apply lookup_empty).
  rewrite map_to_list_empty. simpl. by rewrite app_nil_r.
Qed.

Lemma filter_all {A : Type} (P : A → Prop) `{∀ x, Decision (P x)} (l : list A) :
  Forall P l → filter P l = l.
Proof.
  induction 1 as [|x l Hx Hl IH]; [done|].
  rewrite filter_cons_True by done. by rewrite IH.
Qed.

Lemma loadFaceDescriptorsForSection_keys db sectionId :
  NoDup (map fst (loadFaceDescriptorsForSection db sectionId)).
Proof.
  unfold loadFaceDescriptorsForSection.
  apply (fold_Map_set_invariant (λ _, True)); [|constructor|constructor].
  intros acc x. destruct (Student.faceDescriptors x) as [o|]; [|by left].
  destruct (_ <? _)%nat; [|by left]. right. by eexists _, _.
Qed.

Lemma reload_entry (descriptorsMap : list (string * list (list Q))) k l :
  NoDup (map fst descriptorsMap) →
  Map_get descriptorsMap k = Some l →
  l ≠ [] → Forall (λ d, acceptedLength d = true) l →
  Map_get (loadFaceDescriptorsFromFirebase descriptorsMap) k
  = Some (map (map fround) l).
Proof.
  intros Hnd Hget Hne Hacc. unfold loadFaceDescriptorsFromFirebase.
  assert ((0 <? length l)%nat = true) as Hlen.
  { apply Nat.ltb_lt. destruct l; [done | simpl; lia]. }
  apply (fold_Map_set_get fst
           (λ entry : string * list (list Q),
              if (0 <? length entry.2)%nat then
                if (0 <? length (map (map fround)
                                   (filter (λ d, acceptedLength d = true) entry.2)))%nat
                then Some (map (map fround)
                             (filter (λ d, acceptedLength d = true) entry.2))
                else None
              else None)).
  - intros acc [k0 l0]. simpl.
    destruct (0 <? length l0)%nat; [|done].
    by destruct (0 <? length (map _ (filter _ l0)))%nat.
  - intros [k0 l0] Hin Hk. simpl in *. subst k0.
    pose proof (Map_get_elem_of _ _ _ Hnd Hin) as Hget'.
    assert (l0 = l) as -> by congruence.
    rewrite (filter_all _ l Hacc), Hlen. by rewrite length_map, Hlen.
  - left. exists (k, l). split; [|done]. by apply Map_get_Some_elem_of.
Qed.

(** X16.  Registration reaches the matcher: with unique roll numbers,
    after saveFaceDescriptors has stored a list with at least one
    descriptor of an accepted length, loading the student's section and
    refilling the in-memory table puts, under the student's roll number,
    the accepted descriptors that were saved, each component rounded to
    single precision by the Float32Array conversion (up to order). *)
Theorem save_then_reload db now i st descriptors :
  unique_rolls db →
  STUDENTS db !! i = Some st →
  filter (λ d, acceptedLength d = true) descriptors ≠ [] →
  let db' := (saveFaceDescriptors db now i descriptors).2 in
  let table :=
    loadFaceDescriptorsFromFirebase
      (loadFaceDescriptorsForSection db' (Student.sectionId st)) in
  ∃ l, Map_get table (Student.rollNumber st) = Some l ∧
       l ≡ₚ map (map fround) (filter (λ d, acceptedLength d = true) descriptors).
Proof.
  intros Hu Hi Hne db' table. subst table db'.
  set (l := storedDescriptors (descriptorsObjectFrom 0 descriptors ∅)).
  pose proof (storedDescriptors_saved descriptors) as Hperm. fold l in Hperm.
  assert (l ≠ []) as Hlne.
  { intros Hnil. rewrite Hnil in Hperm. symmetry in Hperm.
    by apply Permutation_nil_r in Hperm. }
  assert (Forall (λ d, acceptedLength d = true) l) as Hacc.
  { rewrite Hperm. apply Forall_forall. by intros d [? _]%list_elem_of_filter. }
  assert ((0 <? length l)%nat = true) as Hlen.
  { apply Nat.ltb_lt. destruct l; [done | simpl; lia]. }
  set (db' := (saveFaceDescriptors db now i descriptors).2).
  set (st' := Student.mk (Student.id st) (Student.name st) (Student.rollNumber st)
                (Student.sectionId st) true
                (Some (descriptorsObjectFrom 0 descriptors ∅))
                (Some (length descriptors)) now).
  assert (STUDENTS db' !! i = Some st') as Hi'.
  { unfold db', saveFaceDescriptors. rewrite Hi. simpl. by rewrite lookup_insert_eq. }
  exists (map (map fround) l). split; [|by apply Permutation_map].
  apply reload_entry; [apply loadFaceDescriptorsForSection_keys| |done|done].
  unfold loadFaceDescriptorsForSection.
  apply (fold_Map_set_get Student.rollNumber
           (λ student,
              match Student.faceDescriptors student with
              | Some o =>
                  if (0 <? length (storedDescriptors o))%nat
                  then Some (storedDescriptors o) else None
              | None => None
              end)).
  - intros acc x. destruct (Student.faceDescriptors x) as [o|]; [|done].
    cbv zeta. destruct (0 <? length (storedDescriptors o))%nat; reflexivity.
  - intros x Hx Hroll. unfold listStudentsBySection in Hx.
    apply list_elem_of_fmap in Hx as ([j t] & -> & Hjt).
    apply elem_of_getDocs in Hjt as [Hj _]. simpl in *.
    destruct (saveFaceDescriptors_lookup _ _ _ _ _ _ Hj) as (t0 & Hj0 & Hr & _).
    assert (j = i) as -> by (apply (Hu j i t0 st Hj0 Hi); congruence).
    assert (t = st') as -> by congruence.
    simpl. fold l. by rewrite Hlen.
  - left. exists (Student.with_id st' i). split; [|done].
    unfold listStudentsBySection.
    apply (list_elem_of_fmap_2 (λ kv : string * Student.t, Student.with_id kv.2 kv.1)
             _ (i, st')).
    apply elem_of_getDocs. split; [done|]. by apply bool_decide_eq_true.
Qed.

Lemma save_then_reload_witness :
  ∃ l, Map_get (loadFaceDescriptorsFromFirebase
                  (loadFaceDescriptorsForSection
                     (saveFaceDescriptors Examples.dbStudents 700 "stu1"
                        [Scenarios.descriptorA; [1 # 2]%Q; Scenarios.descriptorB]).2
                     "CSE-A")) "R1" = Some l ∧
       l ≡ₚ map (map fround) [Scenarios.descriptorA; Scenarios.descriptorB].
Proof.
  apply (save_then_reload Examples.dbStudents 700 "stu1" Examples.student1
           [Scenarios.descriptorA; [1 # 2]%Q; Scenarios.descriptorB]).
  - apply unique_rolls_singleton.
  - reflexivity.
  - discriminate.
Defined.

(** The double 0.1 comes back from the conversion as the single nearest
    to it, 0.100000001490116..., which is another number. *)
Example reload_rounds_to_single :
  fround (round64 (1 # 10)) = (13421773 # 134217728)%Q ∧
  ¬ (fround (round64 (1 # 10)) == round64 (1 # 10))%Q.
Proof.
  split; [vm_compute; reflexivity|].
  intros H. apply Qeq_bool_iff in H. vm_compute in H. discriminate.
Qed.

(** X17.  After a reload the table is well formed: no student is listed
    twice, no student is listed with an empty descriptor array, and every
    descriptor kept has 128, 100 or more than 50 components. *)
Theorem reload_well_formed descriptorsMap :
  keys_unique (loadFaceDescriptorsFromFirebase descriptorsMap) ∧
  well_loaded (loadFaceDescriptorsFromFirebase descriptorsMap).
Proof.
  unfold keys_unique, well_loaded, loadFaceDescriptorsFromFirebase.
  apply fold_Map_set_invariant; [|constructor|constructor].
  intros acc [k l]. destruct (0 <? length l)%nat; [|by left].
  destruct (0 <? length (map _ (filter _ l)))%nat eqn:E; [|by left].
  right. eexists _, _. split; [reflexivity|]. simpl. split.
  - intros Hnil. rewrite Hnil in E. simpl in E. discriminate.
  - apply Forall_forall. intros d' Hd'.
    apply list_elem_of_In, in_map_iff in Hd' as (d & <- & Hd).
    apply list_elem_of_In, list_elem_of_filter in Hd as [Hd _].
    unfold acceptedLength in *. by rewrite length_map.
Qed.

(** With twelve saved descriptors the order read back is that of the keys
    as strings: desc_10 and desc_11 come before desc_2. *)
Example storedDescriptors_order :
  map (λ d, hd 0%Q d)
    (storedDescriptors
       (descriptorsObjectFrom 0
          (map (λ n, repeat (inject_Z (Z.of_nat n)) 128) (seq 0 12)) ∅))
  = [0; 1; 10; 11; 2; 3; 4; 5; 6; 7; 8; 9]%Q.
Proof. vm_compute. reflexivity. Qed.

(** ** The in-memory table *)

Lemma totalDescriptors_from (m : FaceDescriptors) (a b : nat) :
  fold_left (λ (sum : nat) (entry : string * list (list Q)), (sum + length entry.2)%nat)
            m (a + b)%nat
  = (a + fold_left (λ (sum : nat) (entry : string * list (list Q)),
                      (sum + length entry.2)%nat) m b)%nat.
Proof.
  revert b. induction m as [|e m IH]; intros b; simpl; [done|].
  rewrite <- Nat.add_assoc. apply IH.
Qed.

Lemma totalDescriptors_cons e (m : FaceDescriptors) :
  totalDescriptors (e :: m) = (length e.2 + totalDescriptors m)%nat.
Proof.
  unfold totalDescriptors. simpl.
  rewrite <- totalDescriptors_from. f_equal. lia.
Qed.

Lemma totalDescriptors_set (m : FaceDescriptors) k v :
  (totalDescriptors (Map_set m k v) + length (default [] (Map_get m k)))%nat
  = (totalDescriptors m + length v)%nat.
Proof.
  induction m as [|[k0 v0] m IH]; simpl.
  - rewrite totalDescriptors_cons. simpl. unfold totalDescriptors. simpl. lia.
  - destruct (bool_decide (k0 = k)); simpl.
    + rewrite !totalDescriptors_cons. simpl. lia.
    + rewrite !totalDescriptors_cons. simpl. lia.
Qed.

(** X18.  registerStudentFace: with no face in the image it returns false
    and leaves the table alone; otherwise it returns true, the student's
    descriptors are the former ones followed by the first face's
    descriptor, every other student's descriptors are untouched, and the
    total number of descriptors grows by one. *)
Theorem registerStudentFace_appends detections (faceDescriptors : FaceDescriptors) studentId :
  match detections with
  | [] => registerStudentFace detections faceDescriptors studentId
          = (false, faceDescriptors)
  | detection :: _ =>
      let r := registerStudentFace detections faceDescriptors studentId in
      r.1 = true ∧
      getStudentFaceDescriptors r.2 studentId
        = getStudentFaceDescriptors faceDescriptors studentId
          ++ [Detection.descriptor detection] ∧
      (∀ other, other ≠ studentId →
         getStudentFaceDescriptors r.2 other
         = getStudentFaceDescriptors faceDescriptors other) ∧
      totalDescriptors r.2 = S (totalDescriptors faceDescriptors)
  end.
Proof.
  destruct detections as [|detection rest]; [done|].
  unfold registerStudentFace, getStudentFaceDescriptors, Map_has.
  destruct (Map_get faceDescriptors studentId) as [old|] eqn:E; simpl.
  - rewrite E. simpl. split; [done|]. split; [|split].
    + rewrite Map_get_set. by rewrite bool_decide_eq_true_2.
    + intros other Hne. rewrite Map_get_set. by rewrite bool_decide_eq_false_2.
    + pose proof (totalDescriptors_set faceDescriptors studentId
                    (old ++ [Detection.descriptor detection])) as H.
      rewrite E in H. simpl in H. rewrite length_app in H. simpl in H. lia.
  - rewrite Map_get_set, bool_decide_eq_true_2 by done. simpl.
    split; [done|]. split; [|split].
    + rewrite Map_get_set. by rewrite bool_decide_eq_true_2.
    + intros other Hne. rewrite !Map_get_set. by rewrite !bool_decide_eq_false_2.
    + pose proof (totalDescriptors_set (Map_set faceDescriptors studentId []) studentId
                    [Detection.descriptor detection]) as H.
      rewrite Map_get_set, bool_decide_eq_true_2 in H by done. simpl in H.
      pose proof (totalDescriptors_set faceDescriptors studentId []) as H'.
      rewrite E in H'. simpl in H'.
      rewrite Map_get_set, bool_decide_eq_true_2 by done. simpl. lia.
Qed.

Lemma Map_get_delete {V : Type} (m : list (string * V)) k k' :
  Map_get (Map_delete m k) k' = if bool_decide (k = k') then None else Map_get m k'.
Proof.
  unfold Map_delete. induction m as [|[k0 v0] m IH]; simpl.
  - by destruct (bool_decide (k = k')).
  - destruct (decide (k0 = k)) as [->|Hne].
    + rewrite filter_cons_False by (simpl; tauto). rewrite IH.
      destruct (bool_decide (k = k')); done.
    + rewrite filter_cons_True by done. simpl. rewrite IH.
      destruct (bool_decide (k0 = k')) eqn:E0; [|done].
      apply bool_decide_eq_true in E0 as ->.
      by rewrite bool_decide_eq_false_2.
Qed.

(** X19.  clearStudentFaceData forgets one student and only that one:
    afterwards the student is not among the registered students and has
    no descriptors, and every other student's descriptors are what they
    were. *)
Theorem clearStudentFaceData_forgets (faceDescriptors : FaceDescriptors) studentId :
  let table := clearStudentFaceData faceDescriptors studentId in
  (studentId ∉ getRegisteredStudents table) ∧
  getStudentFaceDescriptors table studentId = [] ∧
  ∀ other, other ≠ studentId →
    getStudentFaceDescriptors table other
    = getStudentFaceDescriptors faceDescriptors other.
Proof.
  unfold clearStudentFaceData, getStudentFaceDescriptors, getRegisteredStudents.
  simpl. split; [|split].
  - unfold Map_delete. intros ([k v] & Hk & Hin)%list_elem_of_fmap.
    apply list_elem_of_filter in Hin as [Hne _]. simpl in *. congruence.
  - rewrite Map_get_delete. by rewrite bool_decide_eq_true_2.
  - intros other Hne. rewrite Map_get_delete. by rewrite bool_decide_eq_false_2.
Qed.

(** ** Matcher: what a match is *)

Section MatchProvenance.

Variable euclideanDistance : list Q → list Q → option Q.

(** A property of best matches that every candidate of the scan has. *)
Variable I : BestMatch.t → Prop.

Lemma scanDescriptors_invariant faceDescriptor studentId descriptors bestMatch bestMatch' :
  (∀ d distance, d ∈ descriptors → euclideanDistance faceDescriptor d = Some distance →
                 I (BestMatch.mk studentId (confidenceOf distance))) →
  (∀ b, bestMatch = Some b → I b) →
  scanDescriptors euclideanDistance faceDescriptor studentId descriptors bestMatch
    = Some bestMatch' →
  ∀ b, bestMatch' = Some b → I b.
Proof.
  revert bestMatch.
  induction descriptors as [|d rest IH]; intros bestMatch Hcand Hbest; simpl.
  - by intros [= <-].
  - destruct (euclideanDistance faceDescriptor d) as [distance|] eqn:Ed; [|done].
    assert (I (BestMatch.mk studentId (confidenceOf distance))) as Hnew
      by (apply (Hcand d); [left | done]).
    assert (∀ d0 distance0, d0 ∈ rest →
              euclideanDistance faceDescriptor d0 = Some distance0 →
              I (BestMatch.mk studentId (confidenceOf distance0))) as Hrest
      by (intros d0 distance0 Hin; apply Hcand; by right).
    destruct (_ && _).
    + destruct (Qgtb _ _).
      * intros [= <-] b [= <-]. done.
      * apply IH; [done|]. by intros b [= <-].
    + by apply IH.
Qed.

Lemma scanStudents_invariant faceDescriptor (entries : FaceDescriptors) bestMatch bestMatch' :
  (∀ studentId descriptors d distance,
     (studentId, descriptors) ∈ entries → d ∈ descriptors →
     euclideanDistance faceDescriptor d = Some distance →
     I (BestMatch.mk studentId (confidenceOf distance))) →
  (∀ b, bestMatch = Some b → I b) →
  scanStudents euclideanDistance faceDescriptor entries bestMatch = Some bestMatch' →
  ∀ b, bestMatch' = Some b → I b.
Proof.
  revert bestMatch.
  induction entries as [|[studentId descriptors] rest IH]; intros bestMatch Hcand Hbest; simpl.
  - by intros [= <-].
  - destruct (scanDescriptors _ _ _ _ _) as [best1|] eqn:E1; [|done].
    assert (∀ b, best1 = Some b → I b) as H1.
    { apply (scanDescriptors_invariant faceDescriptor studentId descriptors bestMatch);
        [|done|done].
      intros d distance Hd. apply (Hcand studentId descriptors); [left | done]. }
    assert (∀ studentId0 descriptors0 d distance,
              (studentId0, descriptors0) ∈ rest → d ∈ descriptors0 →
              euclideanDistance faceDescriptor d = Some distance →
              I (BestMatch.mk studentId0 (confidenceOf distance))) as Hrest
      by (intros ???? Hin; apply Hcand; by right).
    destruct best1 as [b1|].
    + destruct (Qgtb _ _).
      * by intros [= <-].
      * by apply IH.
    + by apply IH.
Qed.

End MatchProvenance.

(** X20.  A match always names a registered student: when recognizeFaces'
    scan of one face ends in a match, the id returned is a key of the
    table, and the confidence returned is max(0, 1 - distance) for the
    distance between the face and one of that student's stored
    descriptors. *)
Theorem matched_is_registered euclideanDistance (faceDescriptors : FaceDescriptors)
    detection r :
  recognizeOne euclideanDistance faceDescriptors detection = Some r →
  Recognition.isRecognized r = true →
  ∃ descriptors d distance,
    (Recognition.studentId r, descriptors) ∈ faceDescriptors ∧
    d ∈ descriptors ∧
    euclideanDistance (Detection.descriptor detection) d = Some distance ∧
    Recognition.confidence r = confidenceOf distance.
Proof.
  unfold recognizeOne.
  destruct (scanStudents _ _ _ _) as [[b|]|] eqn:E; [| |done].
  - intros [= <-] _. simpl.
    apply (scanStudents_invariant euclideanDistance
             (λ b, ∃ descriptors d distance,
                (BestMatch.studentId b, descriptors) ∈ faceDescriptors ∧
                d ∈ descriptors ∧
                euclideanDistance (Detection.descriptor detection) d = Some distance ∧
                BestMatch.confidence b = confidenceOf distance)
             (Detection.descriptor detection) faceDescriptors None (Some b));
      [|done|done|done].
    intros studentId descriptors d distance Hin Hd Hdist. simpl.
    by exists descriptors, d, distance.
  - by intros [= <-].
Qed.

Lemma matched_is_registered_witness :
  ∃ descriptors d distance,
    ("R1", descriptors) ∈ Examples.tableR1 ∧ d ∈ descriptors ∧
    euclideanDistance64 (Detection.descriptor Examples.faceHalf) d = Some distance ∧
    (1 # 2)%Q = confidenceOf distance.
Proof.
  apply (matched_is_registered euclideanDistance64 Examples.tableR1
           Examples.faceHalf
           (Recognition.mk "R1" (1 # 2)%Q (copyBox Examples.box1) true)).
  - vm_compute. reflexivity.
  - reflexivity.
Defined.

Section MatchMaximum.

Variable euclideanDistance : list Q → list Q → option Q.

Lemma confidenceToBeat_above bestMatch :
  aboveThreshold bestMatch → (double_0_4 <= confidenceToBeat bestMatch)%Q.
Proof.
  intros Hgood. destruct bestMatch as [b|]; simpl.
  - apply Qlt_le_weak. by apply Hgood.
  - apply Qle_refl.
Qed.

Lemma scanDescriptors_max faceDescriptor studentId descriptors cs bestMatch :
  Forall2 (confidenceIs euclideanDistance faceDescriptor) descriptors cs →
  aboveThreshold bestMatch →
  ∃ bestMatch',
    scanDescriptors euclideanDistance faceDescriptor studentId descriptors bestMatch
      = Some bestMatch' ∧
    aboveThreshold bestMatch' ∧
    (confidenceToBeat bestMatch <= confidenceToBeat bestMatch')%Q ∧
    (Forall (λ c, (c <= confidenceToBeat bestMatch')%Q) cs ∨ stoppedEarly bestMatch').
Proof.
  intros HF. revert bestMatch.
  induction HF as [|d c ds cs Hd HF IH]; intros bestMatch Hgood; simpl.
  - exists bestMatch. split; [done|]. split; [done|].
    split; [apply Qle_refl | left; constructor].
  - unfold confidenceIs in Hd.
    destruct (euclideanDistance faceDescriptor d) as [distance|]; [|done].
    simpl in Hd. injection Hd as Hc. rewrite Hc.
    assert (∀ best0, aboveThreshold best0 → (c <= confidenceToBeat best0)%Q →
              (confidenceToBeat bestMatch <= confidenceToBeat best0)%Q →
              ∃ bestMatch',
                scanDescriptors euclideanDistance faceDescriptor studentId ds best0
                  = Some bestMatch' ∧
                aboveThreshold bestMatch' ∧
                (confidenceToBeat bestMatch <= confidenceToBeat bestMatch')%Q ∧
                (Forall (λ c0, (c0 <= confidenceToBeat bestMatch')%Q) (c :: cs)
                 ∨ stoppedEarly bestMatch')) as Hcont.
    { intros best0 Hgood0 Hc0 Hmono.
      destruct (IH best0 Hgood0) as (b' & Hscan & Hgood' & Hle & Hmax).
      exists b'. split; [done|]. split; [done|].
      split; [by eapply Qle_trans|].
      destruct Hmax as [Hall|Hhigh]; [left | by right].
      constructor; [by eapply Qle_trans | done]. }
    destruct (Qgtb c double_0_4) eqn:Hgt; simpl.
    + apply Qgtb_true in Hgt.
      set (new := Some (BestMatch.mk studentId c)).
      assert (aboveThreshold new) as Hnew by (by intros b [= <-]).
      destruct (match bestMatch with
                | Some b => Qgtb c (BestMatch.confidence b)
                | None => true
                end) eqn:Hbetter.
      * assert ((confidenceToBeat bestMatch <= c)%Q) as Hle.
        { destruct bestMatch as [b|]; simpl; apply Qlt_le_weak; [|done].
          by apply Qgtb_true. }
        destruct (Qgtb c double_0_8) eqn:Hhigh.
        { apply Qgtb_true in Hhigh. exists new. split; [done|]. split; [done|].
          split; [done|]. right. by eexists. }
        apply (Hcont new); [done | apply Qle_refl | done].
      * destruct bestMatch as [b|]; [|done].
        apply Qgtb_false in Hbetter.
        apply (Hcont (Some b)); [done | done | apply Qle_refl].
    + apply Qgtb_false in Hgt.
      apply (Hcont bestMatch); [done | | apply Qle_refl].
      eapply Qle_trans; [exact Hgt|]. by apply confidenceToBeat_above.
Qed.

Lemma scanStudents_max faceDescriptor (entries : FaceDescriptors) cs bestMatch :
  Forall2 (confidenceIs euclideanDistance faceDescriptor) (concat (map snd entries)) cs →
  aboveThreshold bestMatch →
  ∃ bestMatch',
    scanStudents euclideanDistance faceDescriptor entries bestMatch = Some bestMatch' ∧
    aboveThreshold bestMatch' ∧
    (confidenceToBeat bestMatch <= confidenceToBeat bestMatch')%Q ∧
    (Forall (λ c, (c <= confidenceToBeat bestMatch')%Q) cs ∨ stoppedEarly bestMatch').
Proof.
  revert cs bestMatch.
  induction entries as [|[studentId descriptors] rest IH]; intros cs bestMatch HF Hgood;
    simpl in *.
  - apply Forall2_nil_inv_l in HF as ->. exists bestMatch.
    split; [done|]. split; [done|]. split; [apply Qle_refl | left; constructor].
  - apply Forall2_app_inv_l in HF as (cs1 & cs2 & H1 & H2 & ->).
    destruct (scanDescriptors_max faceDescriptor studentId descriptors cs1 bestMatch
                H1 Hgood) as (best1 & -> & Hgood1 & Hle1 & Hmax1).
    assert (∀ b, best1 = Some b → Qgtb (BestMatch.confidence b) double_0_8 = false →
              Forall (λ c, (c <= confidenceToBeat best1)%Q) cs1) as Hnot_high.
    { intros b -> Hlow. destruct Hmax1 as [Hall|(b0 & [= <-] & Hhigh)]; [done|].
      apply Qgtb_true in Hhigh. congruence. }
    assert (∃ bestMatch',
              scanStudents euclideanDistance faceDescriptor rest best1 = Some bestMatch' ∧
              aboveThreshold bestMatch' ∧
              (confidenceToBeat best1 <= confidenceToBeat bestMatch')%Q ∧
              (Forall (λ c, (c <= confidenceToBeat bestMatch')%Q) cs2
               ∨ stoppedEarly bestMatch')) as (b' & Hscan & Hgood' & Hle & Hmax)
      by (by apply IH).
    assert (Forall (λ c, (c <= confidenceToBeat best1)%Q) cs1 →
            ∃ bestMatch',
              scanStudents euclideanDistance faceDescriptor rest best1 = Some bestMatch' ∧
              aboveThreshold bestMatch' ∧
              (confidenceToBeat bestMatch <= confidenceToBeat bestMatch')%Q ∧
              (Forall (λ c, (c <= confidenceToBeat bestMatch')%Q) (cs1 ++ cs2)
               ∨ stoppedEarly bestMatch')) as Hcont.
    { intros Hall1. exists b'. split; [done|]. split; [done|].
      split; [by eapply Qle_trans|].
      destruct Hmax as [Hall2|Hhigh]; [left | by right].
      apply Forall_app. split; [|done].
      eapply Forall_impl; [exact Hall1|]. intros c Hc. simpl in Hc.
      by eapply Qle_trans. }
    destruct best1 as [b|].
    + destruct (Qgtb (BestMatch.confidence b) double_0_8) eqn:Hhigh.
      * apply Qgtb_true in Hhigh. exists (Some b). split; [done|]. split; [done|].
        split; [done|]. right. by eexists.
      * apply Hcont. by apply (Hnot_high b).
    + apply Hcont. destruct Hmax1 as [Hall|(b0 & [=] & _)]. done.
Qed.

Lemma confidences_cover faceDescriptor (entries : FaceDescriptors) cs
    studentId descriptors d distance :
  Forall2 (confidenceIs euclideanDistance faceDescriptor) (concat (map snd entries)) cs →
  (studentId, descriptors) ∈ entries → d ∈ descriptors →
  euclideanDistance faceDescriptor d = Some distance →
  confidenceOf distance ∈ cs.
Proof.
  intros HF Hin Hd Hdist.
  assert (d ∈ concat (map snd entries)) as Hdc.
  { clear HF. induction entries as [|[k l] rest IH]; simpl.
    - by apply not_elem_of_nil in Hin.
    - apply elem_of_app. apply elem_of_cons in Hin as [[= <- <-]|Hin];
        [by left | right; by apply IH]. }
  apply list_elem_of_lookup in Hdc as [n Hn].
  destruct (Forall2_lookup_l _ _ _ _ _ HF Hn) as (c & Hc & Hconf).
  unfold confidenceIs in Hconf. rewrite Hdist in Hconf. simpl in Hconf.
  injection Hconf as <-. by apply (list_elem_of_lookup_2 _ n).
Qed.

End MatchMaximum.

(** X21.  The early exit is the only way to miss the best candidate: when
    every distance is defined and a face is matched, the confidence
    returned is one of the confidences of the scan, and either no stored
    descriptor has a larger one, or the confidence returned is above 0.8
    (the scan stopped there). *)
Theorem matched_confidence_is_max_unless_high
    euclideanDistance (faceDescriptors : FaceDescriptors) detection cs r :
  confidencesOf euclideanDistance (Detection.descriptor detection) faceDescriptors
    = Some cs →
  recognizeOne euclideanDistance faceDescriptors detection = Some r →
  Recognition.isRecognized r = true →
  Recognition.confidence r ∈ cs ∧
  ((maxConfidence cs <= Recognition.confidence r)%Q
   ∨ (double_0_8 < Recognition.confidence r)%Q).
Proof.
  intros Hcs Hr Hrec. unfold confidencesOf in Hcs. apply mapM_Some in Hcs.
  assert (aboveThreshold None) as Hnone by (by intros b).
  destruct (scanStudents_max euclideanDistance (Detection.descriptor detection)
              faceDescriptors cs None Hcs Hnone)
    as (best & Hscan & Hgood & _ & Hmax).
  unfold recognizeOne in Hr. rewrite Hscan in Hr.
  destruct best as [b|]; [|injection Hr as <-; done].
  injection Hr as <-. simpl. split.
  - apply (scanStudents_invariant euclideanDistance (λ b, BestMatch.confidence b ∈ cs)
             (Detection.descriptor detection) faceDescriptors None (Some b));
      [|done|done|done].
    intros studentId descriptors d distance Hin Hd Hdist. simpl.
    by eapply confidences_cover.
  - destruct Hmax as [Hall|(b0 & [= <-] & Hhigh)]; [left | by right].
    apply maxConfidence_le; [|done].
    eapply Qle_trans; [|apply Qlt_le_weak, (Hgood b eq_refl)].
    apply Qle_bool_iff; reflexivity.
Qed.

Lemma matched_confidence_is_max_unless_high_witness :
  (1 # 2)%Q ∈ [(1 # 2)%Q] ∧
  ((maxConfidence [(1 # 2)%Q] <= 1 # 2)%Q ∨ (double_0_8 < 1 # 2)%Q).
Proof.
  apply (matched_confidence_is_max_unless_high euclideanDistance64 Examples.tableR1
           Examples.faceHalf
           [(1 # 2)%Q]
           (Recognition.mk "R1" (1 # 2)%Q (copyBox Examples.box1) true)).
  - vm_compute. reflexivity.
  - vm_compute. reflexivity.
  - reflexivity.
Defined.

(** The early exit at work: the first student's descriptor is at distance
    0.125 (confidence 0.875), the second student's at distance 0.0625
    (confidence 0.9375); the scan stops at the first. *)
Example early_exit_misses_closer_student :
  map (λ r, (Recognition.studentId r, Recognition.confidence r))
    (recognizeFaces euclideanDistance64
       [Detection.mk (repeat 0%Q 128) Examples.box1]
       [("R1", [(1 # 8)%Q :: repeat 0%Q 127]);
        ("R2", [(1 # 16)%Q :: repeat 0%Q 127])] []).1
  = [("R1", (7 # 8)%Q)].
Proof. vm_compute. reflexivity. Qed.

(** ** Teachers, sections, subjects *)

Lemma includes_true l x : includes l x = true ↔ x ∈ l.
Proof. unfold includes. apply bool_decide_eq_true. Qed.

Lemma includes_false l x : includes l x = false ↔ x ∉ l.
Proof. unfold includes. apply bool_decide_eq_false. Qed.

Lemma elem_of_without l x y : y ∈ without l x ↔ y ≠ x ∧ y ∈ l.
Proof. unfold without. rewrite list_elem_of_filter. tauto. Qed.

Lemma NoDup_snoc_fresh (l : list string) x : NoDup l → x ∉ l → NoDup (l ++ [x]).
Proof.
  intros Hnd Hx. apply NoDup_app. split; [done|]. split; [|apply NoDup_singleton].
  intros y Hy ->%list_elem_of_singleton. done.
Qed.

(** X22.  assignTeacherToSection links each side once: repeating the call
    changes nothing; an existing teacher lists the section afterwards and
    an existing section lists the teacher, and a list without duplicates
    stays without duplicates. *)
Theorem assignTeacherToSection_links_once dir now now' teacherId sectionId :
  let dir' := assignTeacherToSection dir now teacherId sectionId in
  assignTeacherToSection dir' now' teacherId sectionId = dir' ∧
  (∀ teacher, TEACHERS dir !! teacherId = Some teacher →
     ∃ teacher', TEACHERS dir' !! teacherId = Some teacher' ∧
                 sectionId ∈ Teacher.sectionIds teacher' ∧
                 (NoDup (Teacher.sectionIds teacher) →
                  NoDup (Teacher.sectionIds teacher'))) ∧
  (∀ section, SECTIONS dir !! sectionId = Some section →
     ∃ section', SECTIONS dir' !! sectionId = Some section' ∧
                 teacherId ∈ ClassSection.teacherIds section' ∧
                 (NoDup (ClassSection.teacherIds section) →
                  NoDup (ClassSection.teacherIds section'))).
Proof.
  unfold assignTeacherToSection. simpl. split; [|split].
  - f_equal.
    + destruct (TEACHERS dir !! teacherId) as [teacher|] eqn:Et; [|by rewrite Et].
      destruct (includes (Teacher.sectionIds teacher) sectionId) eqn:Ei.
      * by rewrite Et, Ei.
      * rewrite lookup_insert_eq. simpl.
        assert (includes (Teacher.sectionIds teacher ++ [sectionId]) sectionId = true)
          as -> by (apply includes_true, elem_of_app; right; left).
        done.
    + destruct (SECTIONS dir !! sectionId) as [section|] eqn:Es; [|by rewrite Es].
      destruct (includes (ClassSection.teacherIds section) teacherId) eqn:Ei.
      * by rewrite Es, Ei.
      * rewrite lookup_insert_eq. simpl.
        assert (includes (ClassSection.teacherIds section ++ [teacherId]) teacherId = true)
          as -> by (apply includes_true, elem_of_app; right; left).
        done.
  - intros teacher Ht. rewrite Ht.
    destruct (includes (Teacher.sectionIds teacher) sectionId) eqn:Ei.
    + exists teacher. split; [done|]. split; [by apply includes_true | done].
    + rewrite lookup_insert_eq. eexists. split; [done|]. simpl.
      split; [apply elem_of_app; right; left|].
      intros Hnd. apply NoDup_snoc_fresh; [done | by apply includes_false].
  - intros section Hs. rewrite Hs.
    destruct (includes (ClassSection.teacherIds section) teacherId) eqn:Ei.
    + exists section. split; [done|]. split; [by apply includes_true | done].
    + rewrite lookup_insert_eq. eexists. split; [done|]. simpl.
      split; [apply elem_of_app; right; left|].
      intros Hnd. apply NoDup_snoc_fresh; [done | by apply includes_false].
Qed.

(** X23.  deleteSectionFromFirebase leaves no reference behind among the
    teachers: afterwards the section document is gone, the same teachers
    exist, none of them lists the section, and each lists exactly the
    other sections it listed before. *)
Theorem deleteSection_unlinks dir now sectionId :
  let dir' := (deleteSectionFromFirebase dir now sectionId).2 in
  SECTIONS dir' !! sectionId = None ∧
  (∀ j, is_Some (TEACHERS dir' !! j) ↔ is_Some (TEACHERS dir !! j)) ∧
  (∀ j teacher', TEACHERS dir' !! j = Some teacher' →
     (sectionId ∉ Teacher.sectionIds teacher') ∧
     ∃ teacher, TEACHERS dir !! j = Some teacher ∧
                ∀ other, other ∈ Teacher.sectionIds teacher' ↔
                         other ≠ sectionId ∧ other ∈ Teacher.sectionIds teacher).
Proof.
  simpl. split; [apply lookup_delete_eq|]. split.
  - intros j. rewrite lookup_fmap. by rewrite fmap_is_Some.
  - intros j teacher'. rewrite lookup_fmap.
    destruct (TEACHERS dir !! j) as [teacher|]; [|done].
    simpl. intros [= <-].
    destruct (includes (Teacher.sectionIds teacher) sectionId) eqn:Ei; simpl.
    + split; [by intros [? _]%elem_of_without|].
      exists teacher. split; [done|]. intros other. apply elem_of_without.
    + apply includes_false in Ei. split; [done|].
      exists teacher. split; [done|]. intros other. split; [|tauto].
      intros Hin. split; [|done]. by intros ->.
Qed.

Lemma getSubjectsForSection_elem dir sectionId x :
  x ∈ getSubjectsForSection dir sectionId →
  ∃ section data,
    SECTIONS dir !! sectionId = Some section ∧
    Subject.id x ∈ ClassSection.subjectIds section ∧
    SUBJECTS dir !! Subject.id x = Some data ∧
    x = Subject.with_id data (Subject.id x).
Proof.
  unfold getSubjectsForSection.
  destruct (SECTIONS dir !! sectionId) as [section|]; [|by intros ?%not_elem_of_nil].
  intros (sid & Hsid & Hx)%list_elem_of_omap.
  destruct (SUBJECTS dir !! sid) as [data|] eqn:Ed; [|done].
  simpl in Hx. injection Hx as <-. simpl. by exists section, data.
Qed.

(** X24.  deleteSubjectFromFirebase leaves no reference behind among the
    sections: afterwards the subject document is gone, no section lists
    the subject, and getSubjectsForSection returns it for no section. *)
Theorem deleteSubject_unlinks dir now subjectId :
  let dir' := (deleteSubjectFromFirebase dir now subjectId).2 in
  SUBJECTS dir' !! subjectId = None ∧
  (∀ j section', SECTIONS dir' !! j = Some section' →
     subjectId ∉ ClassSection.subjectIds section') ∧
  (∀ sectionId x, x ∈ getSubjectsForSection dir' sectionId → Subject.id x ≠ subjectId).
Proof.
  simpl. split; [apply lookup_delete_eq|]. split.
  - intros j section'. rewrite lookup_fmap.
    destruct (SECTIONS dir !! j) as [section|]; [|done].
    simpl. intros [= <-].
    destruct (includes (ClassSection.subjectIds section) subjectId) eqn:Ei; simpl.
    + by intros [? _]%elem_of_without.
    + by apply includes_false.
  - intros sectionId x (section & data & _ & _ & Hd & _)%getSubjectsForSection_elem.
    simpl in Hd. intros Heq. rewrite Heq, lookup_delete_eq in Hd. done.
Qed.

(** X25.  addSubjectToSection: on a missing section it does nothing; on an
    existing one the subject, if it exists, is among the subjects
    getSubjectsForSection returns afterwards; and repeating the call
    changes nothing. *)
Theorem addSubject_then_get dir now now' sectionId subjectId :
  let dir' := addSubjectToSection dir now sectionId subjectId in
  addSubjectToSection dir' now' sectionId subjectId = dir' ∧
  (SECTIONS dir !! sectionId = None → dir' = dir) ∧
  (∀ data, is_Some (SECTIONS dir !! sectionId) →
           SUBJECTS dir !! subjectId = Some data →
           Subject.with_id data subjectId ∈ getSubjectsForSection dir' sectionId).
Proof.
  unfold addSubjectToSection.
  destruct (SECTIONS dir !! sectionId) as [section|] eqn:Es; simpl;
    [|by rewrite Es; repeat split; intros ? [? [=]]].
  destruct (includes (ClassSection.subjectIds section) subjectId) eqn:Ei; simpl.
  - rewrite Es, Ei. split; [done|]. split; [done|].
    intros data _ Hd. unfold getSubjectsForSection. rewrite Es.
    apply list_elem_of_omap. exists subjectId.
    split; [by apply includes_true | by rewrite Hd].
  - rewrite lookup_insert_eq. simpl.
    assert (includes (ClassSection.subjectIds section ++ [subjectId]) subjectId = true)
      as -> by (apply includes_true, elem_of_app; right; left).
    split; [done|]. split; [done|].
    intros data _ Hd. unfold getSubjectsForSection. simpl.
    rewrite lookup_insert_eq. simpl.
    apply list_elem_of_omap. exists subjectId.
    split; [apply elem_of_app; right; left | by rewrite Hd].
Qed.

(** X26.  Section names stay unique: if no two sections share a name, the
    same holds after createSectionInFirebase (which refuses a name in
    use), deleteSectionFromFirebase, addSubjectToSection,
    assignTeacherToSection and deleteSubjectFromFirebase. *)
Theorem section_names_stay_unique dir :
  unique_section_names dir →
  (∀ newId now name, unique_section_names (createSectionInFirebase dir newId now name).2) ∧
  (∀ now sectionId, unique_section_names (deleteSectionFromFirebase dir now sectionId).2) ∧
  (∀ now sectionId subjectId,
     unique_section_names (addSubjectToSection dir now sectionId subjectId)) ∧
  (∀ now teacherId sectionId,
     unique_section_names (assignTeacherToSection dir now teacherId sectionId)) ∧
  (∀ now subjectId, unique_section_names (deleteSubjectFromFirebase dir now subjectId).2).
Proof.
  intros Hu.
  assert (∀ (m : gmap string ClassSection.t),
            (∀ j t, m !! j = Some t →
                    ∃ t0, SECTIONS dir !! j = Some t0 ∧
                          ClassSection.name t = ClassSection.name t0) →
            ∀ i j s t, m !! i = Some s → m !! j = Some t →
                       ClassSection.name s = ClassSection.name t → i = j) as Hsame.
  { intros m Hm i j s t Hi Hj Hn.
    destruct (Hm i s Hi) as (s0 & Hi0 & Hs0). destruct (Hm j t Hj) as (t0 & Hj0 & Ht0).
    apply (Hu i j s0 t0 Hi0 Hj0). congruence. }
  assert (∀ k (f : ClassSection.t → ClassSection.t) x j t,
            (∀ y, ClassSection.name (f y) = ClassSection.name y) →
            SECTIONS dir !! k = Some x →
            <[k := f x]> (SECTIONS dir) !! j = Some t →
            ∃ t0, SECTIONS dir !! j = Some t0 ∧
                  ClassSection.name t = ClassSection.name t0) as Hupd.
  { intros k f x j t Hf Hk Hj. destruct (decide (j = k)) as [->|Hne].
    - rewrite lookup_insert_eq in Hj. injection Hj as <-. exists x. by rewrite Hf.
    - rewrite lookup_insert_ne in Hj by done. by exists t. }
  repeat split.
  - intros newId now name. unfold createSectionInFirebase.
    destruct (getDocs _ _) as [|p l] eqn:E; simpl; [|done].
    pose proof (proj1 (getDocs_nil _ _) E) as Hnone.
    intros i j s t Hi Hj Hn. simpl in Hi, Hj.
    destruct (decide (i = newId)) as [Hi'|Hni], (decide (j = newId)) as [Hj'|Hnj];
      [congruence|subst i|subst j|].
    + rewrite lookup_insert_eq in Hi. rewrite lookup_insert_ne in Hj by done.
      injection Hi as <-. simpl in Hn.
      pose proof (Hnone j t Hj) as Hf. simpl in Hf.
      rewrite bool_decide_eq_false in Hf. congruence.
    + rewrite lookup_insert_eq in Hj. rewrite lookup_insert_ne in Hi by done.
      injection Hj as <-. simpl in Hn.
      pose proof (Hnone i s Hi) as Hf. simpl in Hf.
      rewrite bool_decide_eq_false in Hf. congruence.
    + rewrite lookup_insert_ne in Hi by done. rewrite lookup_insert_ne in Hj by done.
      by apply (Hu i j s t).
  - intros now sectionId. refine (Hsame _ _). simpl. intros j t Hj.
    apply lookup_delete_Some in Hj as [_ Hj]. by exists t.
  - intros now sectionId subjectId. unfold addSubjectToSection.
    destruct (SECTIONS dir !! sectionId) as [section|] eqn:Es; [|done].
    destruct (includes _ _); [done|]. refine (Hsame _ _). simpl. intros j t.
    by apply (Hupd sectionId
                (λ x, ClassSection.with_subjectIds x
                        (ClassSection.subjectIds section ++ [subjectId]) now)).
  - intros now teacherId sectionId. unfold assignTeacherToSection.
    refine (Hsame _ _). simpl.
    destruct (SECTIONS dir !! sectionId) as [section|] eqn:Es; [|by intros j t; exists t].
    destruct (includes _ _); [by intros j t; exists t|]. intros j t.
    by apply (Hupd sectionId
                (λ x, ClassSection.with_teacherIds x
                        (ClassSection.teacherIds section ++ [teacherId]) now)).
  - intros now subjectId. refine (Hsame _ _). simpl. intros j t. rewrite lookup_fmap.
    destruct (SECTIONS dir !! j) as [t0|]; [|done]. simpl. intros [= <-].
    exists t0. split; [done|]. by destruct (includes _ _).
Qed.

Lemma section_names_stay_unique_witness :
  unique_section_names
    (createSectionInFirebase Scenarios.directory1 "secB" 10 "CSE-B").2.
Proof.
  apply (section_names_stay_unique Scenarios.directory1).
  intros a b x y Ha Hb _. simpl in Ha, Hb.
  apply lookup_singleton_Some in Ha as [<- _].
  by apply lookup_singleton_Some in Hb as [<- _].
Defined.

(** X27.  A teacher who was created can log in: createTeacherInFirebase
    creates only when the employee id is free and uid, department, phone
    and password are all present; after it, verifyTeacherLogin with the
    new employee id returns the new teacher exactly when it is given the
    password the teacher was created with. *)
Theorem createTeacher_then_login dir newId now teacherData teacher password :
  (createTeacherInFirebase dir newId now teacherData).1 = Created teacher →
  let dir' := (createTeacherInFirebase dir newId now teacherData).2 in
  TeacherInput.copiedDefined teacherData = true ∧
  TeacherInput.password teacherData ≠ None ∧
  verifyTeacherLogin dir' (TeacherInput.employeeId teacherData) password
  = if bool_decide (TeacherInput.password teacherData = Some password)
    then Some teacher else None.
Proof.
  unfold createTeacherInFirebase.
  destruct (getDocs _ _) as [|p l] eqn:E; [|done].
  destruct (TeacherInput.copiedDefined teacherData) eqn:Hdef; [|done].
  simpl. intros [= <-]. split; [done|]. split.
  - unfold TeacherInput.copiedDefined in Hdef.
    destruct (TeacherInput.password teacherData); [done|].
    by rewrite andb_false_r in Hdef.
  - unfold verifyTeacherLogin. simpl.
    rewrite (getDocs_insert_only _ _ newId _ E) by (by apply bool_decide_eq_true).
    done.
Qed.

Lemma createTeacher_then_login_witness :
  verifyTeacherLogin
    (createTeacherInFirebase Scenarios.directory1 "tch2" 10 Scenarios.faraday).2
    "ECE001" "password123"
  = Some (Teacher.mk "tch2" (Some "uid2") "Prof. Faraday" "ece@college.edu" "ECE001" []
            (Some "ECE") (Some "555-0102") (Some "password123") 10 10).
Proof.
  apply (createTeacher_then_login Scenarios.directory1 "tch2" 10 Scenarios.faraday
           (Teacher.mk "tch2" (Some "uid2") "Prof. Faraday" "ece@college.edu" "ECE001" []
              (Some "ECE") (Some "555-0102") (Some "password123") 10 10)
           "password123").
  vm_compute. reflexivity.
Defined.

(** A teacher entered without a phone number is not stored, and cannot
    log in. *)
Example createTeacher_without_phone :
  let r := createTeacherInFirebase Scenarios.directory1 "tch2" 10
             (TeacherInput.mk (Some "uid2") "Prof. Faraday" "ece@college.edu" "ECE001"
                None (Some "ECE") None (Some "password123")) in
  r = (Refused UndefinedField, Scenarios.directory1) ∧
  verifyTeacherLogin r.2 "ECE001" "password123" = None.
Proof. vm_compute. split; reflexivity. Qed.

(** X28.  verifyTeacherLogin never lets a wrong password through: a
    teacher it returns is a stored teacher with the employee id given
    whose stored password is the password given; a teacher stored
    without a password is never returned. *)
Theorem verifyTeacherLogin_sound dir employeeId password teacher :
  verifyTeacherLogin dir employeeId password = Some teacher →
  Teacher.employeeId teacher = employeeId ∧
  Teacher.password teacher = Some password ∧
  ∃ data, TEACHERS dir !! Teacher.id teacher = Some data ∧
          teacher = Teacher.with_id data (Teacher.id teacher).
Proof.
  unfold verifyTeacherLogin.
  destruct (getDocs _ _) as [|[docId data] l] eqn:E; [done|].
  apply getDocs_head in E as [Hd He]. apply bool_decide_eq_true in He.
  destruct (bool_decide _) eqn:Hp; [|done].
  apply bool_decide_eq_true in Hp. simpl in Hp.
  intros [= <-]. simpl. repeat split; try done. by exists data.
Qed.

Lemma verifyTeacherLogin_sound_witness :
  Teacher.password (Teacher.with_id Scenarios.teacher1 "tch1") = Some "secret".
Proof.
  apply (verifyTeacherLogin_sound Scenarios.directory1 "CSE001" "secret"
           (Teacher.with_id Scenarios.teacher1 "tch1")).
  vm_compute. reflexivity.
Defined.

(** ** Timetable *)

(** X29.  getTimetableForNow reports a class from its start time to its
    end time, both included: on Saturday and Sunday it reports nothing;
    on another day it reports a class exactly when some entry of that day
    has startTime <= now <= endTime (as HH:MM strings), and what it
    reports is the section, subject and period of such an entry. *)
Theorem getTimetableForNow_slot TIMETABLE day hours minutes :
  let currentTime := currentTimeOf hours minutes in
  let inSlot (e : TimetableEntry.t) :=
    TimetableEntry.day e = day ∧
    String.leb (TimetableEntry.startTime e) currentTime = true ∧
    String.leb currentTime (TimetableEntry.endTime e) = true in
  (day = 0%nat ∨ day = 6%nat → getTimetableForNow TIMETABLE day hours minutes = None) ∧
  (∀ slot, getTimetableForNow TIMETABLE day hours minutes = Some slot →
     ∃ docId e, TIMETABLE !! docId = Some e ∧ inSlot e ∧
                slot = TimetableSlot.mk (TimetableEntry.sectionId e)
                         (TimetableEntry.subjectId e) (TimetableEntry.period e)) ∧
  (day ≠ 0%nat → day ≠ 6%nat →
   ∀ docId e, TIMETABLE !! docId = Some e → inSlot e →
              is_Some (getTimetableForNow TIMETABLE day hours minutes)).
Proof.
  intros currentTime inSlot. unfold getTimetableForNow. fold currentTime.
  split; [|split].
  - intros [-> | ->]; done.
  - intros slot. destruct (_ || _)%nat; [done|].
    destruct (List.find _ _) as [[docId e]|] eqn:Ef; [|done].
    apply List.find_some in Ef as [Hin Hslot].
    apply list_elem_of_In, elem_of_getDocs in Hin as [Hd Hday].
    apply bool_decide_eq_true in Hday.
    apply andb_true_iff in Hslot as [Hs He]. simpl in *.
    intros [= <-]. exists docId, e. by repeat split.
  - intros H0 H6 docId e Hd (Hday & Hs & He).
    assert (((day =? 0) || (day =? 6))%nat = false) as ->.
    { apply orb_false_iff. split; by apply Nat.eqb_neq. }
    destruct (List.find _ _) as [doc|] eqn:Ef; [done|].
    exfalso.
    pose proof (List.find_none _ _ Ef (docId, e)) as Hnone. simpl in Hnone.
    rewrite Hs, He in Hnone. simpl in Hnone.
    assert (true = false) by
      (apply Hnone, list_elem_of_In, elem_of_getDocs; split;
         [done | by apply bool_decide_eq_true]).
    done.
Qed.

Lemma getTimetableForNow_slot_witness :
  is_Some (getTimetableForNow Scenarios.timetable1 1 9 50).
Proof.
  apply (getTimetableForNow_slot Scenarios.timetable1 1 9 50)
    with (docId := "tt1") (e := TimetableEntry.mk 1 "09:00" "09:50" "secA" "subDs" 1).
  - discriminate.
  - discriminate.
  - reflexivity.
  - repeat split.
Defined.

(** The slot of the example ends at 09:50; at 09:50 the class is still
    reported, at 09:51 it is not, and on a Sunday never. *)
Example getTimetableForNow_boundaries :
  getTimetableForNow Scenarios.timetable1 1 9 50 = Some (TimetableSlot.mk "secA" "subDs" 1) ∧
  getTimetableForNow Scenarios.timetable1 1 9 51 = None ∧
  getTimetableForNow Scenarios.timetable1 1 8 59 = None ∧
  getTimetableForNow Scenarios.timetable1 0 9 30 = None.
Proof. repeat split; vm_compute; reflexivity. Qed.
